(** * FoodWaste Monitor: the aggregation layer and the ensemble forecaster

    A shallow embedding of the numeric core of the dashboard:
    - [App]: the pure derivations over an inventory snapshot
      ([calculateTotalInventoryValue], [prepareInventoryTrendData],
      [prepareExpiryAnalysisData] and the "At Risk Value" card, in the time
      zone of the host);
    - [WastePredictionModel]: the forecaster class ([train],
      [trainCategoryModel], [predict], [updateModel]) over an abstract
      interface of the two numeric libraries it drives;
    - [Dashboard], [MLPredictionCard], [useWastePrediction]: the other
      figures of the dashboard, the prediction card and the hook that holds
      the forecaster.

    The code computes on JavaScript numbers.  Every definition is written
    once over an arithmetic interface [Number] and read at two instances:
    [Float64], the IEEE-754 binary64 arithmetic the program really runs, and
    [Real], exact arithmetic, where no operation rounds. *)

From Stdlib Require Import ZArith List String Bool Lia Reals Lra.
From Stdlib Require Import PrimFloat FloatOps FloatAxioms SpecFloat.
From Stdlib Require Uint63.
From stdpp Require Import base gmap strings list.
Import ListNotations.

Set Warnings "-inexact-float".
Local Open Scope Z_scope.

(** ** JavaScript numbers *)

(** The operations on [number] that the code uses. *)
Class Number : Type := {
  num : Type;
  nofZ : Z -> num;              (* integer literals, [array.length] *)
  nadd : num -> num -> num;     (* a + b *)
  nsub : num -> num -> num;     (* a - b *)
  nmul : num -> num -> num;     (* a * b *)
  ndiv : num -> num -> num;     (* a / b *)
  nsq : num -> num;             (* Math.pow(a, 2) *)
  nmax : num -> num -> num      (* Math.max(a, b) *)
}.

Declare Scope js_scope.
Delimit Scope js_scope with js.
Infix "+" := nadd : js_scope.
Infix "-" := nsub : js_scope.
Infix "*" := nmul : js_scope.
Infix "/" := ndiv : js_scope.

(** [Math.max] on doubles: NaN if either argument is NaN, and [+0] counts as
    larger than [-0]. *)
Definition float_max (x y : float) : float :=
  if (PrimFloat.is_nan x || PrimFloat.is_nan y)%bool then PrimFloat.nan
  else if PrimFloat.ltb x y then y
  else if PrimFloat.ltb y x then x
  else if PrimFloat.get_sign x then y else x.

(** Conversion of an integer to the nearest double (integers of magnitude
    below 2^53 are exact). *)
Definition float_of_Z (z : Z) : float :=
  if z <? 0 then PrimFloat.opp (PrimFloat.of_uint63 (Uint63.of_Z (- z)))
  else PrimFloat.of_uint63 (Uint63.of_Z z).

(** NaN, as the specification of the primitive floats has it. *)
Definition isNaN (x : float) : Prop := Prim2SF x = S754_nan.

(** IEEE-754 binary64, round to nearest even: the arithmetic of the program.
    [Math.pow(a, 2)] is taken as the correctly rounded square. *)
#[export] Instance Float64 : Number := {|
  num := float;
  nofZ := float_of_Z;
  nadd := PrimFloat.add;
  nsub := PrimFloat.sub;
  nmul := PrimFloat.mul;
  ndiv := PrimFloat.div;
  nsq := fun a => PrimFloat.mul a a;
  nmax := float_max
|}.

(** Exact arithmetic on the reals: what the program computes when no
    operation rounds, overflows or meets NaN. *)
Definition Real : Number := {|
  num := R;
  nofZ := IZR;
  nadd := Rplus;
  nsub := Rminus;
  nmul := Rmult;
  ndiv := Rdiv;
  nsq := fun a => Rmult a a;
  nmax := Rmax
|}.

(** ** JavaScript built-ins *)

(** [array.reduce((a, b) => a + f(b), 0)] *)
Definition sum_by `{Number} {A} (f : A -> num) (l : list A) : num :=
  fold_left (fun total x => (total + f x)%js) l (nofZ 0).

(** JavaScript truthiness of a [string | undefined]: [undefined] and the
    empty string are falsy. *)
Definition truthy (s : option string) : bool :=
  match s with
  | Some c => negb (String.eqb c "")
  | None => false
  end.

(** [new Set(values)]: the distinct values in order of first insertion. *)
Definition newSet {A} `{EqDecision A} (values : list A) : list A :=
  fold_left (fun set v => if existsb (fun w => bool_decide (w = v)) set
                          then set else set ++ [v])
            values [].

(** [array.findIndex(p)], with [None] for the [-1] of a failed search. *)
Fixpoint findIndex {A} (p : A -> bool) (l : list A) : option nat :=
  match l with
  | [] => None
  | x :: rest => if p x then Some 0%nat else option_map S (findIndex p rest)
  end.

(** [array[i]] for the index a search returned: [undefined] ([None]) when out
    of range. *)
Definition at_index {A} (l : list A) (i : option nat) : option A :=
  match i with
  | Some n => nth_error l n
  | None => None
  end.

(** ** The aggregation layer (component [App]) *)

Module App.

(** Milliseconds in a day: [1000 * 60 * 60 * 24]. *)
Definition msPerDay : Z := 1000 * 60 * 60 * 24.

(** [Math.ceil(a / b)] for an integer number of milliseconds [a] and [b > 0]. *)
Definition ceil_div (a b : Z) : Z := - ((- a) / b).

(** The time zone of the host, as ECMAScript reads it: [LocalTZA(t, isUTC)]
    is the offset of local time from UTC in milliseconds, at the instant [t]
    when [isUTC] holds and at the local time [t] otherwise. *)
Definition TimeZone : Type := Z -> bool -> Z.

(** [LocalTime(t)] and [UTC(t)] of ECMAScript. *)
Definition LocalTime (LocalTZA : TimeZone) (t : Z) : Z := t + LocalTZA t true.
Definition UTC (LocalTZA : TimeZone) (t : Z) : Z := t - LocalTZA t false.

(** date-fns [addDays(date, amount)] on epoch milliseconds:
    [if (!amount) return date; date.setDate(date.getDate() + amount)].
    [setDate] moves the local calendar date by [amount] days and keeps the
    local time of day, so the local time advances by [amount] times 24
    hours and is read back in the offset in force then. *)
Definition addDays (LocalTZA : TimeZone) (date : Z) (amount : Z) : Z :=
  if amount =? 0 then date
  else UTC LocalTZA (LocalTime LocalTZA date + amount * msPerDay).

(** The clock of the zone reads, [amount] days after [date] at the same
    local time, the offset it has at [date]: no change of clock (daylight
    saving or other) falls in between. *)
Definition sameOffset (LocalTZA : TimeZone) (date amount : Z) : Prop :=
  LocalTZA (LocalTime LocalTZA date + amount * msPerDay) false
  = LocalTZA date true.

Section Aggregation.
Context `{N : Number}.

(** [interface FoodItem].  [expiryDate] holds the epoch milliseconds of the
    calendar date, [new Date(item.expiryDate).getTime()]. *)
Record FoodItem := {
  id : string;
  name : string;
  quantity : num;
  expiryDate : Z;
  category : string;
  costPerKg : num
}.

(** [item.quantity * item.costPerKg] *)
Definition itemValue (item : FoodItem) : num :=
  (quantity item * costPerKg item)%js.

Definition calculateTotalInventoryValue (inventory : list FoodItem) : num :=
  fold_left (fun total item => (total + quantity item * costPerKg item)%js)
            inventory (nofZ 0).

(** A row of the category roll-up. *)
Record CategoryTotal := {
  ct_category : string;
  ct_quantity : num;
  ct_value : num
}.

(** In-place update of the first element that satisfies [p]. *)
Fixpoint mutate_first {A} (p : A -> bool) (f : A -> A) (l : list A) : list A :=
  match l with
  | [] => []
  | x :: rest => if p x then f x :: rest else x :: mutate_first p f rest
  end.

(** The reducer of [prepareInventoryTrendData]. *)
Definition trendStep (acc : list CategoryTotal) (item : FoodItem)
  : list CategoryTotal :=
  let same := fun c => String.eqb (ct_category c) (category item) in
  match List.find same acc with
  | Some _ =>
      mutate_first same
        (fun c => {| ct_category := ct_category c;
                     ct_quantity := (ct_quantity c + quantity item)%js;
                     ct_value := (ct_value c + quantity item * costPerKg item)%js |})
        acc
  | None =>
      acc ++ [{| ct_category := category item;
                 ct_quantity := quantity item;
                 ct_value := (quantity item * costPerKg item)%js |}]
  end.

Definition prepareInventoryTrendData (inventory : list FoodItem)
  : list CategoryTotal :=
  fold_left trendStep inventory [].

(** The accumulator of [prepareExpiryAnalysisData]. *)
Record ExpiryRanges := {
  expired : num;
  critical : num;
  warning : num;
  safe : num
}.

(** [Math.ceil((expiry.getTime() - now.getTime()) / msPerDay)].  Both times
    are whole milliseconds, and the quotient is compared with 0, 3 and 7
    only, where the double the code computes and the exact ceiling agree. *)
Definition daysUntilExpiry (now : Z) (item : FoodItem) : Z :=
  ceil_div (expiryDate item - now) msPerDay.

(** The reducer of [prepareExpiryAnalysisData]. *)
Definition expiryStep (now : Z) (acc : ExpiryRanges) (item : FoodItem)
  : ExpiryRanges :=
  let days := daysUntilExpiry now item in
  let value := (quantity item * costPerKg item)%js in
  if days <=? 0 then
    {| expired := (expired acc + value)%js; critical := critical acc;
       warning := warning acc; safe := safe acc |}
  else if days <=? 3 then
    {| expired := expired acc; critical := (critical acc + value)%js;
       warning := warning acc; safe := safe acc |}
  else if days <=? 7 then
    {| expired := expired acc; critical := critical acc;
       warning := (warning acc + value)%js; safe := safe acc |}
  else
    {| expired := expired acc; critical := critical acc;
       warning := warning acc; safe := (safe acc + value)%js |}.

Definition expiryRanges (now : Z) (inventory : list FoodItem) : ExpiryRanges :=
  fold_left (expiryStep now) inventory
    {| expired := nofZ 0; critical := nofZ 0; warning := nofZ 0; safe := nofZ 0 |}.

(** [Object.entries(expiryRanges).map(([status, value]) => ({status, value}))] *)
Definition prepareExpiryAnalysisData (now : Z) (inventory : list FoodItem)
  : list (string * num) :=
  let r := expiryRanges now inventory in
  [("expired"%string, expired r); ("critical"%string, critical r);
   ("warning"%string, warning r); ("safe"%string, safe r)].

(** The value shown by the "At Risk Value" card, rendered at the instant
    [now] on a host in the time zone [LocalTZA]. *)
Definition atRiskValue (LocalTZA : TimeZone) (now : Z) (inventory : list FoodItem)
  : num :=
  fold_left (fun total item => (total + quantity item * costPerKg item)%js)
    (List.filter (fun item => expiryDate item <=? addDays LocalTZA now 3)
                 inventory)
    (nofZ 0).

End Aggregation.

Arguments FoodItem N : clear implicits.
Arguments CategoryTotal N : clear implicits.
Arguments ExpiryRanges N : clear implicits.

(** *** The four expiry buckets, as the specification words them *)

Inductive Bucket := Expired | Critical | Warning | Safe.

Definition inBucket (b : Bucket) (days : Z) : bool :=
  match b with
  | Expired => days <=? 0
  | Critical => (1 <=? days) && (days <=? 3)
  | Warning => (4 <=? days) && (days <=? 7)
  | Safe => 7 <? days
  end.

Definition bucketTotal `{Number} (b : Bucket) (r : ExpiryRanges _) : num :=
  match b with
  | Expired => expired r
  | Critical => critical r
  | Warning => warning r
  | Safe => safe r
  end.

(** The items of the inventory that fall in bucket [b] at instant [now]. *)
Definition itemsIn `{Number} (b : Bucket) (now : Z) (inventory : list (FoodItem _))
  : list (FoodItem _) :=
  List.filter (fun item => inBucket b (daysUntilExpiry now item)) inventory.

(** *** Grouping by category, as the specification words it *)

(** The items of category [c], in inventory order. *)
Definition categoryItems `{N : Number} (c : string) (inventory : list (FoodItem N))
  : list (FoodItem N) :=
  List.filter (fun item => String.eqb (category item) c) inventory.

(** [f x1 + f x2 + ... + f xk], added from left to right. *)
Definition runningSum `{N : Number} {A} (f : A -> num) (l : list A) : num :=
  match l with
  | [] => nofZ 0
  | x :: rest => fold_left (fun total y => (total + f y)%js) rest (f x)
  end.

(** One row per distinct category, in order of first occurrence, each with
    the running sums of value and quantity over the items of its category. *)
Definition rowsOk `{N : Number} (inventory : list (FoodItem N))
           (rows : list (CategoryTotal N)) : Prop :=
  List.map ct_category rows = newSet (List.map category inventory) /\
  forall row, In row rows ->
    ct_value row = runningSum itemValue (categoryItems (ct_category row) inventory) /\
    ct_quantity row = runningSum quantity (categoryItems (ct_category row) inventory).

End App.

(** ** The ensemble forecaster (class [WastePredictionModel]) *)

Module WastePredictionModel.

(** What a call returns: a value, or the exception it throws. *)
Inductive result (E A : Type) : Type :=
| Ok (value : A)
| Throw (exn : E).
Arguments Ok {E A} value.
Arguments Throw {E A} exn.

(** An error object, as far as a handler can tell one from another: the
    [name] its class gives it and its [message]. *)
Record JsError := { error_name : string; error_message : string }.

(** [new Error(message)] *)
Definition Error (message : string) : JsError :=
  {| error_name := "Error"; error_message := message |}.

(** What a method can throw: the class's own [new Error(message)], or
    whatever error object a library call throws. *)
Definition Exn : Type := JsError.

(** A JavaScript object held by reference: [===] on two objects compares
    their identities, never their fields. *)
Record ObjRef (A : Type) := { identity : nat; fields : A }.
Arguments identity {A} _.
Arguments fields {A} _.

Definition sameObject {A} (a b : ObjRef A) : bool :=
  Nat.eqb (identity a) (identity b).

(** The configuration objects handed to TensorFlow.js.  Fractions are kept
    in thousandths ([0.2] is [200], [0.01] is [10]). *)
Inductive Activation := relu | linear.

Inductive Layer :=
| dense (inputShape : option nat) (units : nat) (activation : Activation)
| dropout (ratePermille : nat).

Record CompileArgs := {
  adamPermille : nat;
  loss : string;
  metrics : list string
}.

Record FitArgs := {
  epochs : nat;
  batchSize : nat;
  validationSplitPermille : nat;
  shuffle : option bool
}.

Definition generalLayers : list Layer :=
  [dense (Some 5%nat) 16 relu; dropout 200; dense None 8 relu; dense None 1 linear].
Definition generalCompile : CompileArgs :=
  {| adamPermille := 10; loss := "meanSquaredError"; metrics := ["mse"%string] |}.
Definition generalFit : FitArgs :=
  {| epochs := 150; batchSize := 32; validationSplitPermille := 200;
     shuffle := Some true |}.

Definition categoryLayers : list Layer :=
  [dense (Some 5%nat) 12 relu; dense None 6 relu; dense None 1 linear].
Definition categoryCompile : CompileArgs :=
  {| adamPermille := 10; loss := "meanSquaredError"; metrics := [] |}.
Definition categoryFit : FitArgs :=
  {| epochs := 100; batchSize := 16; validationSplitPermille := 200;
     shuffle := None |}.

Section Model.
Context `{N : Number}.

(** [interface WastePredictionInput] *)
Record WastePredictionInput := {
  dayOfWeek : num;
  temperature : num;
  humidity : num;
  stockLevel : num;
  previousDayWaste : num;
  category : option string
}.

(** The value [predict] returns. *)
Record PredictionResult := {
  nnPrediction : num;
  mlrPrediction : num;
  categoryPrediction : option num;
  confidence : num
}.

(** The feature row built from an observation, in the order the code lists
    the fields. *)
Definition featureRow (data : WastePredictionInput) : list num :=
  [dayOfWeek data; temperature data; humidity data; stockLevel data;
   previousDayWaste data].

(** Rows of numbers as the array of arrays handed to [tf.tensor2d], whose
    entries may be [undefined] at run time. *)
Definition rows (X : list (list num)) : list (list (option num)) :=
  List.map (List.map Some) X.

(** The two numeric libraries, [@tensorflow/tfjs] and
    [ml-regression-multivariate-linear], as far as the class calls them.
    A call that can throw returns a [result], the exception being an error
    object of the library's choice; [tf_fit] trains the network
    it is given in place, so it returns the network as it stands when the
    call ends together with the error it threw, if any.  Prediction reads
    the components without changing them. *)
Record Library := {
  Sequential : Type;
  MLR : Type;
  Tensor : Type;
  tf_sequential : list Layer -> Sequential;
  tf_compile : Sequential -> CompileArgs -> Sequential;
  tf_tensor2d : list (list (option num)) -> result JsError Tensor;
  tf_fit : Sequential -> Tensor -> Tensor -> FitArgs ->
           Sequential * option JsError;
  (* model.predict(tf.tensor2d([x])).dataSync()[0] *)
  tf_predict : Sequential -> list num -> num;
  (* new MLR(X, y) *)
  mlr_new : list (list num) -> list (list num) -> result JsError MLR;
  (* mlr.predict([x]), unwrapped to its single number *)
  mlr_predict : MLR -> list num -> num
}.

Context {L : Library}.


(** The private fields of an instance. *)
Record State := {
  model : option (Sequential L);
  mlr : option (MLR L);
  categoryModels : gmap string (Sequential L)
}.

(** [new WastePredictionModel()] *)
Definition initial : State :=
  {| model := None; mlr := None; categoryModels := ∅ |}.

Definition set_model (v : option (Sequential L)) (st : State) : State :=
  {| model := v; mlr := mlr st; categoryModels := categoryModels st |}.
Definition set_mlr (v : option (MLR L)) (st : State) : State :=
  {| model := model st; mlr := v; categoryModels := categoryModels st |}.
(** [this.categoryModels.set(category, net)] *)
Definition set_category (c : string) (net : Sequential L) (st : State) : State :=
  {| model := model st; mlr := mlr st;
     categoryModels := <[c := net]> (categoryModels st) |}.

(** Methods run in a state-and-exception monad over the instance. *)
Definition M (A : Type) : Type := State -> result Exn A * State.

Definition ret {A} (a : A) : M A := fun st => (Ok a, st).
Definition throw {A} (e : Exn) : M A := fun st => (Throw e, st).
Definition bind {A B} (m : M A) (k : A -> M B) : M B :=
  fun st => match m st with
            | (Ok a, st') => k a st'
            | (Throw e, st') => (Throw e, st')
            end.
Definition get : M State := fun st => (Ok st, st).
Definition modify (f : State -> State) : M unit := fun st => (Ok tt, f st).
(** A library call: its exception, if any, propagates. *)
Definition call {A} (r : result JsError A) : M A :=
  match r with
  | Ok a => ret a
  | Throw e => throw e
  end.

Notation "'let!' x := m 'in' k" := (bind m (fun x => k))
  (at level 10, x name, m at level 100, k at level 200).
Notation "'run' m ; k" := (bind m (fun _ => k))
  (at level 10, m at level 100, k at level 200).

(** [for (const x of xs) { body(x) }]: stops at the first exception. *)
Fixpoint forEach {A} (xs : list A) (body : A -> M unit) : M unit :=
  match xs with
  | [] => ret tt
  | x :: rest => run body x; forEach rest body
  end.

Definition train (historicalData : list WastePredictionInput)
           (wasteAmounts : list num) : M unit :=
  let X := List.map featureRow historicalData in
  let y := List.map (fun amount => [amount]) wasteAmounts in
  let! lin := call (mlr_new L X y) in
  run modify (set_mlr (Some lin));
  let net := tf_compile L (tf_sequential L generalLayers) generalCompile in
  run modify (set_model (Some net));
  let! xs := call (tf_tensor2d L (rows X)) in
  let! ys := call (tf_tensor2d L (rows y)) in
  (* await this.model.fit(xs, ys, ...) trains this.model in place *)
  let '(fitted, failure) := tf_fit L net xs ys generalFit in
  run modify (set_model (Some fitted));
  match failure with
  | Some e => throw e
  | None => ret tt
  end.

(** [wasteAmounts] is typed [number[]], but [updateModel] fills it by
    indexing, so an entry can be [undefined]. *)
Definition trainCategoryModel (category : string)
           (data : list WastePredictionInput)
           (wasteAmounts : list (option num)) : M unit :=
  let net := tf_compile L (tf_sequential L categoryLayers) categoryCompile in
  let X := List.map featureRow data in
  let! xs := call (tf_tensor2d L (rows X)) in
  let! ys := call (tf_tensor2d L (List.map (fun v => [v]) wasteAmounts)) in
  let '(fitted, failure) := tf_fit L net xs ys categoryFit in
  match failure with
  | Some e => throw e
  | None => modify (set_category category fitted)
  end.

(** Lines 129-134 of the class: mean, population variance and confidence
    of the available predictions. *)
Definition mean (predictions : list num) : num :=
  (fold_left (fun a b => a + b) predictions (nofZ 0)
   / nofZ (Z.of_nat (length predictions)))%js.

Definition variance (predictions : list num) : num :=
  let mean := mean predictions in
  (fold_left (fun a b => a + nsq (b - mean)) predictions (nofZ 0)
   / nofZ (Z.of_nat (length predictions)))%js.

Definition confidenceOf (predictions : list num) : num :=
  nmax (nofZ 0) (nofZ 100 - variance predictions * nofZ 10)%js.

Definition predict (input : WastePredictionInput) : M PredictionResult :=
  let! st := get in
  match model st, mlr st with
  | Some net, Some lin =>
      let inputArray := featureRow input in
      let nnResult := tf_predict L net inputArray in
      let mlrResult := mlr_predict L lin inputArray in
      let categoryResult :=
        match category input with
        | Some c =>
            if truthy (Some c) then
              match categoryModels st !! c with
              | Some categoryModel => Some (tf_predict L categoryModel inputArray)
              | None => None
              end
            else None
        | None => None
        end in
      let predictions :=
        [nnResult; mlrResult] ++
        match categoryResult with Some r => [r] | None => [] end in
      ret {| nnPrediction := nnResult;
             mlrPrediction := mlrResult;
             categoryPrediction := categoryResult;
             confidence := confidenceOf predictions |}
  | _, _ => throw (Error "Model not trained")
  end.

(** [newData.filter(d => d.category === category)] *)
Definition categoryData (c : option string)
           (newData : list (ObjRef WastePredictionInput))
  : list (ObjRef WastePredictionInput) :=
  List.filter (fun d => bool_decide (category (fields d) = c)) newData.

(** [categoryData.map((_, i) =>
      newWasteAmounts[newData.findIndex(nd => nd === categoryData[i])])] *)
Definition categoryWaste (c : option string)
           (newData : list (ObjRef WastePredictionInput))
           (newWasteAmounts : list num) : list (option num) :=
  List.map (fun sample =>
              at_index newWasteAmounts
                (findIndex (fun nd => sameObject nd sample) newData))
           (categoryData c newData).

(** The body of the loop over [categories] in [updateModel]. *)
Definition retrain (newData : list (ObjRef WastePredictionInput))
           (newWasteAmounts : list num) (c : option string) : M unit :=
  if negb (truthy c) then ret tt (* continue *) else
  match c with
  | Some name => trainCategoryModel name
                   (List.map fields (categoryData c newData))
                   (categoryWaste c newData newWasteAmounts)
  | None => ret tt
  end.

Definition updateModel (newData : list (ObjRef WastePredictionInput))
           (newWasteAmounts : list num) : M unit :=
  run train (List.map fields newData) newWasteAmounts;
  let categories :=
    newSet (List.filter truthy (List.map (fun d => category (fields d)) newData)) in
  forEach categories (retrain newData newWasteAmounts).

(** The network [trainCategoryModel] fits on the data it is given, or the
    exception a library call throws on the way. *)
Definition fitCategory (data : list WastePredictionInput)
           (waste : list (option num)) : result JsError (Sequential L) :=
  match tf_tensor2d L (rows (List.map featureRow data)) with
  | Throw e => Throw e
  | Ok xs =>
      match tf_tensor2d L (List.map (fun v => [v]) waste) with
      | Throw e => Throw e
      | Ok ys =>
          match tf_fit L (tf_compile L (tf_sequential L categoryLayers)
                                     categoryCompile) xs ys categoryFit with
          | (fitted, None) => Ok fitted
          | (_, Some e) => Throw e
          end
      end
  end.

(** The prediction values available in a result, in the order [predict]
    collects them. *)
Definition available (r : PredictionResult) : list num :=
  [nnPrediction r; mlrPrediction r] ++
  match categoryPrediction r with Some c => [c] | None => [] end.

End Model.

Arguments WastePredictionInput N : clear implicits.
Arguments PredictionResult N : clear implicits.
Arguments Library N : clear implicits.
Arguments State {N} L.
Arguments M {N} L A.
Arguments initial {N L}.

(** *** A stand-in for the two libraries

    Used to run the class on concrete inputs.  A network is a constant
    predictor: a fresh one answers [0]; fitting stores the data and makes it
    answer the first target.  As in TensorFlow.js, [tensor2d] throws an
    [Error] on an empty array and [fit] throws one when inputs and targets
    differ in their number of rows.  The regressor keeps its data and
    answers the first target as well; as ml-regression-multivariate-linear
    does, it refuses on construction an empty batch and one whose inputs and
    targets differ in their number of rows, here always with the error of
    a dimension mismatch. *)
Module Stub.
Section Stub.
Context `{N : Number}.

Definition EmptyValues : JsError :=
  Error "tensor2d() requires shape to be provided when `values` are a flat/TypedArray".
Definition SampleCountMismatch : JsError :=
  Error "Input Tensors should have the same number of samples as target Tensors.".
Definition DimensionMismatch : JsError :=
  {| error_name := "RangeError";
     error_message := "Matrices dimensions must be equal" |}.

Definition Matrix : Type := list (list (option num)).

Record Net := {
  layers : list Layer;
  compileArgs : option CompileArgs;
  fittedOn : option (Matrix * Matrix);
  answer : num
}.

Definition firstTarget (y : Matrix) : num :=
  match y with
  | (Some t :: _) :: _ => t
  | _ => nofZ 0
  end.

Definition sequential (ls : list Layer) : Net :=
  {| layers := ls; compileArgs := None; fittedOn := None; answer := nofZ 0 |}.

Definition compile (net : Net) (args : CompileArgs) : Net :=
  {| layers := layers net; compileArgs := Some args;
     fittedOn := fittedOn net; answer := answer net |}.

Definition tensor2d (values : Matrix) : result JsError Matrix :=
  match values with
  | [] => Throw EmptyValues
  | _ => Ok values
  end.

Definition fit (net : Net) (xs ys : Matrix) (args : FitArgs)
  : Net * option JsError :=
  if Nat.eqb (length xs) (length ys)
  then ({| layers := layers net; compileArgs := compileArgs net;
           fittedOn := Some (xs, ys); answer := firstTarget ys |}, None)
  else (net, Some SampleCountMismatch).

Definition Regressor : Type := list (list num) * list (list num).

Definition regress (X y : list (list num)) : result JsError Regressor :=
  if Nat.eqb (length X) (length y) && negb (Nat.eqb (length X) 0)
  then Ok (X, y)
  else Throw DimensionMismatch.

Definition library : Library N := {|
  Sequential := Net;
  MLR := Regressor;
  Tensor := Matrix;
  tf_sequential := sequential;
  tf_compile := compile;
  tf_tensor2d := tensor2d;
  tf_fit := fit;
  tf_predict := fun net _ => answer net;
  mlr_new := regress;
  mlr_predict := fun lin _ => match snd lin with
                              | (t :: _) :: _ => t
                              | _ => nofZ 0
                              end
|}.

(** A network that answers [a] whatever the input. *)
Definition constant (a : num) : Net :=
  {| layers := generalLayers; compileArgs := Some generalCompile;
     fittedOn := None; answer := a |}.
End Stub.
End Stub.

End WastePredictionModel.

(** ** The rest of the dashboard (component [App]) *)

Module Dashboard.

Section Dashboard.
Context `{N : Number}.

(** [interface WasteData] *)
Record WasteData := {
  date : string;
  amount : num;
  category : string;
  cost : num
}.

Definition calculateTotalWasteCost (wasteData : list WasteData) : num :=
  fold_left (fun total item => (total + cost item)%js) wasteData (nofZ 0).

(** The figure of the "Total Inventory" card,
    [inventory.reduce((sum, item) => sum + Number(item.quantity), 0)];
    [Number] leaves a number as it is. *)
Definition totalInventoryWeight (inventory : list (App.FoodItem N)) : num :=
  fold_left (fun sum item => (sum + App.quantity item)%js) inventory (nofZ 0).

(** The status cell of a row of the inventory table: the colour classes
    and the label, from the days until expiry at the instant of rendering. *)
Definition statusColor (now : Z) (item : App.FoodItem N) : string :=
  let daysUntilExpiry := App.daysUntilExpiry now item in
  if daysUntilExpiry <=? 0 then "bg-red-100 text-red-800"
  else if daysUntilExpiry <=? 3 then "bg-yellow-100 text-yellow-800"
  else "bg-green-100 text-green-800".

Definition statusLabel (now : Z) (item : App.FoodItem N) : string :=
  let daysUntilExpiry := App.daysUntilExpiry now item in
  if daysUntilExpiry <=? 0 then "Expired"
  else if daysUntilExpiry <=? 3 then "Expiring Soon"
  else "Active".

End Dashboard.

Arguments WasteData N : clear implicits.

(** [!x] for a number: zero of either sign and NaN are falsy. *)
Definition falsy (x : float) : bool :=
  (PrimFloat.is_zero x || PrimFloat.is_nan x)%bool.

(** [wasteData[wasteData.length - 1]?.amount || 0], on doubles. *)
Definition previousDayWaste (wasteData : list (WasteData Float64)) : float :=
  let last :=
    at_index wasteData
             (if Nat.eqb (length wasteData) 0 then None
              else Some (length wasteData - 1)%nat) in
  match last with
  | Some record => if falsy (amount record) then 0%float else amount record
  | None => 0%float
  end.

(** The observation [onSubmit] hands to [predictWaste], from the day of the
    week ([new Date().getDay()]), the inventory the server returned, the
    waste history and the category of the new item. *)
Definition predictionInput (dayOfWeek : float)
           (inventoryData : list (App.FoodItem Float64))
           (wasteData : list (WasteData Float64)) (category : string)
  : WastePredictionModel.WastePredictionInput Float64 :=
  {| WastePredictionModel.dayOfWeek := dayOfWeek;
     WastePredictionModel.temperature := 25%float;
     WastePredictionModel.humidity := 60%float;
     WastePredictionModel.stockLevel :=
       fold_left (fun total item => (total + App.quantity item)%float)
                 inventoryData 0%float;
     WastePredictionModel.previousDayWaste := previousDayWaste wasteData;
     WastePredictionModel.category := Some category |}.

End Dashboard.

(** ** The prediction card (component [MLPredictionCard]) *)

Module MLPredictionCard.

Section Card.
Context `{N : Number}.

(** [predictions.reduce((a, b) => a + b) / predictions.length], where
    [predictions] is [[nnPrediction, mlrPrediction]] with the category
    prediction pushed when it is defined; with no initial value the
    reduction starts from the first entry. *)
Definition averagePrediction (nnPrediction mlrPrediction : num)
           (categoryPrediction : option num) : num :=
  let others :=
    [mlrPrediction] ++
    match categoryPrediction with Some c => [c] | None => [] end in
  (fold_left (fun a b => a + b) others nnPrediction
   / nofZ (Z.of_nat (length (nnPrediction :: others))))%js.

End Card.

Definition getConfidenceColor (conf : float) : string :=
  if PrimFloat.leb 90 conf then "text-green-600"
  else if PrimFloat.leb 70 conf then "text-yellow-600"
  else "text-red-600".

(** Whether the "Low Confidence" warning is rendered: [confidence < 70]. *)
Definition lowConfidence (confidence : float) : bool :=
  PrimFloat.ltb confidence 70.

End MLPredictionCard.

(** ** The hook [useWastePrediction] *)

Module useWastePrediction.
Import WastePredictionModel.

Section Hook.
Context `{N : Number} {L : Library N}.

(** [{ inputs, outputs }] *)
Definition TrainingData : Type :=
  (list (ObjRef (WastePredictionInput N)) * list num)%type.

(** The four pieces of state of the hook.  [model] holds the instance, that
    is the fields of the forecaster as they stand. *)
Record HookState := {
  model : option (State L);
  loading : bool;
  error : option string;
  trainingData : option TrainingData
}.

(** The state at the first render. *)
Definition mount (initialData : option TrainingData) : HookState :=
  {| model := None; loading := true; error := None;
     trainingData := initialData |}.

(** The effect run once after the first render. *)
Definition initializeModel (hs : HookState) : HookState :=
  let newModel : State L := initial in
  match trainingData hs with
  | Some (inputs, outputs) =>
      match train (List.map fields inputs) outputs newModel with
      | (Ok _, trained) =>
          {| model := Some trained; loading := false; error := error hs;
             trainingData := trainingData hs |}
      | (Throw _, _) =>
          {| model := model hs; loading := false;
             error := Some "Failed to initialize waste prediction model"%string;
             trainingData := trainingData hs |}
      end
  | None =>
      {| model := Some newModel; loading := false; error := error hs;
         trainingData := trainingData hs |}
  end.

Definition updateModel (newData : TrainingData) (hs : HookState) : HookState :=
  match model hs with
  | None => hs
  | Some instance =>
      match WastePredictionModel.updateModel (fst newData) (snd newData) instance with
      | (Ok _, instance') =>
          {| model := Some instance'; loading := false; error := error hs;
             trainingData := Some newData |}
      | (Throw _, instance') =>
          {| model := Some instance'; loading := false;
             error := Some "Failed to update model with new data"%string;
             trainingData := trainingData hs |}
      end
  end.

Definition predictWaste (input : WastePredictionInput N) (hs : HookState)
  : result Exn (PredictionResult N) * HookState :=
  match model hs with
  | None => (Throw (Error "Model not initialized"), hs)
  | Some instance =>
      let '(outcome, instance') := predict input instance in
      (outcome, {| model := Some instance'; loading := loading hs;
                   error := error hs; trainingData := trainingData hs |})
  end.

(** What a component does with the hook once it has mounted: any sequence
    of calls of the two functions the hook returns. *)
Inductive Call :=
| callUpdateModel (newData : TrainingData)
| callPredictWaste (input : WastePredictionInput N).

Definition call (hs : HookState) (c : Call) : HookState :=
  match c with
  | callUpdateModel newData => updateModel newData hs
  | callPredictWaste input => snd (predictWaste input hs)
  end.

Definition calls (cs : list Call) (hs : HookState) : HookState :=
  fold_left call cs hs.

End Hook.

Arguments HookState {N} L.
Arguments TrainingData N : clear implicits.
Arguments Call N : clear implicits.

End useWastePrediction.

(** ** Notions of the specification, and inputs to run the code on *)

(** One summand of the valuation, and the sum of the four bucket totals. *)
Definition addValue `{N : Number} (total : num) (item : App.FoodItem N) : num :=
  (total + App.quantity item * App.costPerKg item)%js.

Definition sumOfBuckets (r : App.ExpiryRanges Real) : R :=
  (App.expired r + App.critical r + App.warning r + App.safe r)%R.

(** Simple mean and population variance of a list of reals. *)
Definition Rsum (l : list R) : R := fold_right Rplus 0%R l.

Definition simpleMean (P : list R) : R := (Rsum P / INR (length P))%R.

Definition populationVariance (P : list R) : R :=
  (Rsum (List.map (fun x => Rsqr (x - simpleMean P)) P) / INR (length P))%R.

(** Notions about doubles, over their specification [SpecFloat]. *)
Module Binary64.

(** After [k] steps of [shr_1] from the integer [m0]: the quotient by 2^k,
    and a round or sticky bit exactly when the division is not exact. *)
Definition shr_inv (m0 k : Z) (mrs : shr_record) : Prop :=
  shr_m mrs = m0 / 2 ^ k /\
  ((shr_r mrs || shr_s mrs)%bool = true <-> m0 mod 2 ^ k <> 0).

(** NaN, or a value of sign [s]. *)
Definition sign_or_nan (s : bool) (x : spec_float) : Prop :=
  match x with
  | S754_nan => True
  | S754_zero s' | S754_infinity s' | S754_finite s' _ _ => s' = s
  end.

(** Zero, or a double whose two lowest mantissa bits are clear and whose
    exponent is away from both ends of the range: adding it to itself
    twice and dividing by 2 or by 3 is exact.  Every finite
    single-precision value, as TensorFlow.js returns them, is one. *)
Definition spareBits (a : float) : bool :=
  match Prim2SF a with
  | S754_zero _ => true
  | S754_finite _ m e => (Zpos m mod 4 =? 0) && (-1072 <=? e) && (e <=? 969)
  | _ => false
  end.

End Binary64.

(** Two time zones: UTC, and Central European time around the start of
    summer time in 2024, one hour ahead of UTC until 2024-03-31 01:00 UTC
    and two hours ahead from then on; the local times that the change
    skips are read in the offset before it. *)
Module Zones.
Import App.

Definition utc : TimeZone := fun _ _ => 0.

Definition summerTimeStart : Z := 1711846800000.

Definition centralEurope : TimeZone := fun t isUTC =>
  if isUTC
  then (if t <? summerTimeStart then 3600000 else 7200000)
  else (if t <? summerTimeStart + 7200000 then 3600000 else 7200000).
End Zones.

(** A lot of 7 kg at 1 per kg that expires on 2024-04-01, seen on
    2024-03-29 at 00:30 UTC, three days of 24 hours less half an hour
    before. *)
Module ClockChange.
Import App.
Local Open Scope float_scope.

Definition now : Z := 1711672200000.

Definition salad : FoodItem Float64 :=
  {| id := "7"; name := "Salad"; quantity := 7; expiryDate := 1711929600000;
     category := "Produce"; costPerKg := 1 |}.
End ClockChange.

(** An inventory of three small lots, priced 1 per kg, seen at an instant
    [now]: the first expired a day ago, the second expires in two days, the
    third expired two days ago. *)
Module Leftovers.
Import App.
Local Open Scope float_scope.

Definition now : Z := 1710000000000.

Definition lot (n : string) (kg : float) (expiry : Z) (cat : string)
  : FoodItem Float64 :=
  {| id := n; name := n; quantity := kg; expiryDate := expiry;
     category := cat; costPerKg := 1 |}.

Definition inventory : list (FoodItem Float64) :=
  [lot "spinach" 0.2 (now - msPerDay) "Produce";
   lot "yoghurt" 0.1 (now + 2 * msPerDay) "Dairy";
   lot "berries" 0.3 (now - 2 * msPerDay) "Produce"].
End Leftovers.

(** Three lots in exact arithmetic: the first expired a day ago, the second
    expires in two days, the third in nine; and a waste history of two days. *)
Module ExactLeftovers.
Import App.
Local Existing Instance Real | 0.
Local Open Scope R_scope.

Definition now : Z := 1710000000000.

Definition lot (n : string) (kg : R) (expiry : Z) (cat : string)
  : FoodItem Real :=
  {| id := n; name := n; quantity := kg; expiryDate := expiry;
     category := cat; costPerKg := 1 |}.

Definition spinach : FoodItem Real := lot "spinach" 2 (now - msPerDay) "Produce".
Definition yoghurt : FoodItem Real := lot "yoghurt" 1 (now + 2 * msPerDay) "Dairy".
Definition berries : FoodItem Real := lot "berries" 3 (now + 9 * msPerDay) "Produce".

Definition inventory : list (FoodItem Real) := [spinach; yoghurt; berries].

Definition wasteData : list (Dashboard.WasteData Real) :=
  [ {| Dashboard.date := "2024-03-01"; Dashboard.amount := 150;
       Dashboard.category := "Produce"; Dashboard.cost := 7500 |};
    {| Dashboard.date := "2024-03-02"; Dashboard.amount := 120;
       Dashboard.category := "Dairy"; Dashboard.cost := 6000 |} ].
End ExactLeftovers.

(** The scenarios of the specification, on doubles: one item of 10 kg at
    50 per kg, expiring two days after [now]. *)
Module Scenario.
Import App.
Local Open Scope float_scope.

Definition now : Z := 1710000000000.

Definition apples : FoodItem Float64 :=
  {| id := "1"; name := "Organic Apples"; quantity := 10;
     expiryDate := now + 2 * msPerDay; category := "Produce";
     costPerKg := 50 |}.
End Scenario.

(** Forecasters over the stand-in library, on doubles. *)
Module Trial.
Import WastePredictionModel.
Local Open Scope float_scope.

Definition lib : Library Float64 := Stub.library.

Definition observation (day : float) (cat : option string)
  : WastePredictionInput Float64 :=
  {| dayOfWeek := day; temperature := 25; humidity := 60; stockLevel := 205;
     previousDayWaste := 140; category := cat |}.

(** The forecaster after [train] on two observations. *)
Definition trained : State lib :=
  snd (train [observation 1 None; observation 2 None] [150; 120] initial).

(** The same, after [trainCategoryModel('', ...)] on two observations. *)
Definition trainedWithEmptyKey : State lib :=
  snd (trainCategoryModel ""
         [observation 1 (Some ""%string); observation 2 (Some ""%string)]
         [Some 90; Some 80] trained).

(** The trained forecaster with a network that answers NaN in place of
    its own, as after a fit that diverged. *)
Definition diverged : State lib :=
  set_model (L := lib) (Some (Stub.constant nan)) trained.

(** Sample objects: two of category Produce, two whose category is the
    empty string. *)
Definition produce : ObjRef (WastePredictionInput Float64) :=
  {| identity := 0; fields := observation 1 (Some "Produce"%string) |}.
Definition produce' : ObjRef (WastePredictionInput Float64) :=
  {| identity := 1; fields := observation 2 (Some "Produce"%string) |}.
(** Another object with the very fields of [produce]. *)
Definition produceTwin : ObjRef (WastePredictionInput Float64) :=
  {| identity := 4; fields := observation 1 (Some "Produce"%string) |}.
Definition unlabelled : ObjRef (WastePredictionInput Float64) :=
  {| identity := 2; fields := observation 1 (Some ""%string) |}.
Definition unlabelled' : ObjRef (WastePredictionInput Float64) :=
  {| identity := 3; fields := observation 2 (Some ""%string) |}.

(** The forecaster after [updateModel([produce, produce'], [150, 120])]. *)
Definition trainedWithProduce : State lib :=
  snd (updateModel [produce; produce'] [150; 120] initial).
End Trial.

(** The same stand-in, in exact arithmetic. *)
Module ExactTrial.
Import WastePredictionModel.
Local Existing Instance Real | 0.

Definition lib : Library Real := @Stub.library Real.

Definition observation (cat : option string) : WastePredictionInput Real :=
  {| dayOfWeek := 1%R; temperature := 25%R; humidity := 60%R;
     stockLevel := 205%R; previousDayWaste := 140%R; category := cat |}.

(** The forecaster after [updateModel] on two Produce samples with
    targets 150 and 150. *)
Definition trained : State lib :=
  snd (updateModel
         [{| identity := 0; fields := observation (Some "Produce"%string) |};
          {| identity := 1; fields := observation (Some "Produce"%string) |}]
         [150%R; 150%R] initial).
End ExactTrial.

(** * Properties *)

Ltac real_arith := cbn [num nofZ nadd nsub nmul ndiv nsq nmax Real] in *.

(** ** Facts on doubles *)

Module FloatProps.

Lemma isNaN_is_nan x : isNaN x -> PrimFloat.is_nan x = true.
Proof.
  unfold isNaN, PrimFloat.is_nan. intros H.
  rewrite FloatAxioms.eqb_spec, H. reflexivity.
Qed.

Lemma add_NaN_l x y : isNaN x -> isNaN (x + y)%float.
Proof. unfold isNaN. intros H. rewrite add_spec, H. reflexivity. Qed.

Lemma add_NaN_r x y : isNaN y -> isNaN (x + y)%float.
Proof.
  unfold isNaN. intros H. rewrite add_spec, H.
  destruct (Prim2SF x); reflexivity.
Qed.

Lemma sub_NaN_r x y : isNaN y -> isNaN (x - y)%float.
Proof.
  unfold isNaN. intros H. rewrite sub_spec, H.
  destruct (Prim2SF x); reflexivity.
Qed.

Lemma mul_NaN_l x y : isNaN x -> isNaN (x * y)%float.
Proof. unfold isNaN. intros H. rewrite mul_spec, H. reflexivity. Qed.

Lemma div_NaN_l x y : isNaN x -> isNaN (x / y)%float.
Proof. unfold isNaN. intros H. rewrite div_spec, H. reflexivity. Qed.

Lemma fold_add_NaN (f : float -> float) (l : list float) (a : float) :
  isNaN a -> isNaN (fold_left (fun acc b => (acc + f b)%float) l a).
Proof.
  revert a. induction l as [|x l IH]; intros a Ha; [exact Ha|].
  cbn [fold_left]. apply IH, add_NaN_l, Ha.
Qed.

Lemma fold_add_NaN_term (f : float -> float) (l : list float) (a : float) :
  (exists x, In x l /\ isNaN (f x)) ->
  isNaN (fold_left (fun acc b => (acc + f b)%float) l a).
Proof.
  revert a. induction l as [|x l IH]; intros a (z & Hin & Hz); [destruct Hin|].
  cbn [fold_left]. destruct Hin as [<-|Hin].
  - apply fold_add_NaN, add_NaN_r, Hz.
  - apply IH. eauto.
Qed.

Lemma ltb_leb x y : PrimFloat.ltb x y = true -> PrimFloat.leb x y = true.
Proof.
  rewrite ltb_spec, leb_spec. unfold SFltb, SFleb.
  destruct (SFcompare (Prim2SF x) (Prim2SF y)) as [[]|]; congruence.
Qed.

Lemma float_max_zero_floor y :
  PrimFloat.is_nan (float_max 0 y) = true \/ PrimFloat.leb 0 (float_max 0 y) = true.
Proof.
  unfold float_max.
  change (PrimFloat.is_nan 0) with false. cbn [orb].
  destruct (PrimFloat.is_nan y); [left; reflexivity|].
  destruct (PrimFloat.ltb 0 y) eqn:Hlt; [right; apply ltb_leb, Hlt|].
  change (PrimFloat.get_sign 0) with false.
  destruct (PrimFloat.ltb y 0); right; reflexivity.
Qed.
End FloatProps.

(** ** Rounding of doubles

    Facts about the specification of binary64 arithmetic that the
    primitive floats obey. *)

Module Rounding.
Import Binary64.

Local Abbreviation fexp := (SpecFloat.fexp prec emax).

Lemma fexp_mono a b : a <= b -> fexp a <= fexp b.
Proof. unfold SpecFloat.fexp. lia. Qed.

Lemma digits2_bounds m :
  2 ^ (Zpos (digits2_pos m) - 1) <= Zpos m < 2 ^ Zpos (digits2_pos m).
Proof.
  induction m as [m IH|m IH|]; cbn [digits2_pos];
    [| |cbn; lia];
    rewrite Pos2Z.inj_succ;
    replace (Z.succ (Zpos (digits2_pos m)) - 1)
      with (Z.succ (Zpos (digits2_pos m) - 1)) by lia;
    rewrite !Z.pow_succ_r by lia; lia.
Qed.

Lemma pow2_pos k : 0 <= k -> 0 < 2 ^ k.
Proof. intros. apply Z.pow_pos_nonneg; lia. Qed.

Lemma pow2_lt_inv a b : 0 <= b -> 2 ^ a < 2 ^ b -> a < b.
Proof. intros Hb H. apply (Z.pow_lt_mono_r_iff 2); [lia|exact Hb|exact H]. Qed.

Lemma iter_pos_inv {A} (f : A -> A) (Inv : Z -> A -> Prop) :
  (forall k x, 0 <= k -> Inv k x -> Inv (k + 1) (f x)) ->
  forall p k x, 0 <= k -> Inv k x -> Inv (k + Zpos p) (SpecFloat.iter_pos f p x).
Proof.
  intros Hstep. induction p as [p IH|p IH|]; intros k x Hk Hx; cbn [SpecFloat.iter_pos].
  - replace (k + Zpos p~1) with (((k + 1) + Zpos p) + Zpos p) by lia.
    apply IH; [lia|]. apply IH; [lia|]. apply Hstep; assumption.
  - replace (k + Zpos p~0) with ((k + Zpos p) + Zpos p) by lia.
    apply IH; [lia|]. apply IH; assumption.
  - apply Hstep; assumption.
Qed.

Lemma shr_inv_0 m0 : shr_inv m0 0 (Build_shr_record m0 false false).
Proof.
  unfold shr_inv. cbn [shr_m shr_r shr_s orb]. rewrite Z.pow_0_r, Z.div_1_r, Z.mod_1_r.
  split; [reflexivity|]. split; [discriminate|congruence].
Qed.

Lemma shr_inv_step m0 k mrs :
  0 <= m0 -> 0 <= k -> shr_inv m0 k mrs -> shr_inv m0 (k + 1) (shr_1 mrs).
Proof.
  intros Hm0 Hk [Hq Hf]. unfold shr_inv.
  pose proof (pow2_pos k Hk) as Hp.
  rewrite Z.pow_add_r, Z.pow_1_r by lia.
  rewrite <- Z.div_div by lia.
  rewrite Z.rem_mul_r by lia.
  pose proof (Z.mod_pos_bound m0 (2 ^ k) Hp) as Hmod.
  assert (Hq0 : 0 <= m0 / 2 ^ k) by (apply Z.div_pos; lia).
  destruct mrs as [m r s]. cbn [shr_m shr_r shr_s] in *. subst m.
  set (q := m0 / 2 ^ k) in *.
  assert (Hsum : forall b : Z, 0 <= b ->
            (m0 mod 2 ^ k + 2 ^ k * b <> 0 <-> (m0 mod 2 ^ k <> 0 \/ b <> 0))) by (intros; nia).
  pose proof (Z.mod_pos_bound q 2 ltac:(lia)) as Hq2.
  rewrite Hsum by lia. rewrite <- Hf.
  unfold shr_1.
  destruct q as [|p|p] eqn:Eq; [|destruct p as [p|p|]|lia];
    cbn [shr_m shr_r shr_s orb].
  - split; [reflexivity|]. cbn. intuition congruence.
  - split.
    + rewrite Pos2Z.inj_xI. Z.div_mod_to_equations. lia.
    + split; [intros _; right|reflexivity].
      rewrite Pos2Z.inj_xI. Z.div_mod_to_equations. lia.
  - split.
    + rewrite Pos2Z.inj_xO. Z.div_mod_to_equations. lia.
    + assert (Z.pos p~0 mod 2 = 0)
        by (rewrite Pos2Z.inj_xO; Z.div_mod_to_equations; lia).
      intuition congruence.
  - split; [reflexivity|]. split; [intros _; right; discriminate|reflexivity].
Qed.

Lemma shr_spec m0 e n :
  0 <= m0 ->
  shr_inv m0 (Z.max 0 n) (fst (shr (Build_shr_record m0 false false) e n)) /\
  snd (shr (Build_shr_record m0 false false) e n) = e + Z.max 0 n.
Proof.
  intros Hm0. unfold shr. destruct n as [|p|p]; cbn [fst snd].
  - split; [apply shr_inv_0|lia].
  - split; [|lia]. replace (Z.max 0 (Zpos p)) with (0 + Zpos p) by lia.
    apply (iter_pos_inv shr_1 (shr_inv m0)); [|lia|apply shr_inv_0].
    intros k x Hk. apply shr_inv_step; assumption.
  - split; [apply shr_inv_0|lia].
Qed.

Lemma shr_fexp_spec m e :
  0 <= m ->
  let n := Z.max 0 (fexp (Zdigits2 m + e) - e) in
  shr_inv m n (fst (shr_fexp prec emax m e loc_Exact)) /\
  snd (shr_fexp prec emax m e loc_Exact) = e + n.
Proof. intros Hm. unfold shr_fexp. cbn [shr_record_of_loc]. apply shr_spec, Hm. Qed.

Lemma round_nearest_even_bounds mrs :
  shr_m mrs <= round_nearest_even (shr_m mrs) (loc_of_shr_record mrs)
  <= shr_m mrs + (if (shr_r mrs || shr_s mrs)%bool then 1 else 0).
Proof.
  destruct mrs as [m [] []]; cbn; try destruct (Z.even m); lia.
Qed.

Lemma div_succ_le a b c : 0 < c -> a <= b * c -> a mod c <> 0 -> a / c + 1 <= b.
Proof. intros. Z.div_mod_to_equations. nia. Qed.

Lemma div_le a b c : 0 < c -> a <= b * c -> a / c <= b.
Proof. intros. Z.div_mod_to_equations. nia. Qed.

(** Rounding does not step over a representable bound: if the value
    [mz * 2^ez] is at most [M * 2^E], a canonical double, so is the double
    it is rounded to. *)
Lemma binary_round_aux_le mz ez M E :
  ez <= fexp (Zpos (digits2_pos mz) + ez) ->
  ez <= E -> Zpos mz <= Zpos M * 2 ^ (E - ez) ->
  fexp (Zpos (digits2_pos M) + E) = E -> E <= emax - prec ->
  let r := binary_round_aux prec emax false (Zpos mz) ez loc_Exact in
  r = S754_nan \/ SFleb r (S754_finite false M E) = true.
Proof.
  intros HP HezE Hle Hcan Hmax. unfold binary_round_aux.
  pose proof (shr_fexp_spec (Zpos mz) ez ltac:(lia)) as [[Hq1 Hf1] He1].
  destruct (shr_fexp prec emax (Zpos mz) ez loc_Exact) as [mrs' e'].
  cbn [fst snd] in *. cbn [Zdigits2] in *.
  set (d := Zpos (digits2_pos mz)) in *.
  set (dM := Zpos (digits2_pos M)) in *.
  pose proof (digits2_bounds mz) as Hd. fold d in Hd.
  pose proof (digits2_bounds M) as HdM. fold dM in HdM.
  set (n1 := Z.max 0 (fexp (d + ez) - ez)) in *.
  assert (Hn1 : n1 = fexp (d + ez) - ez) by lia.
  assert (He'E : e' <= E).
  { assert (Hpow : 2 ^ (d - 1) < 2 ^ (dM + (E - ez))).
    { rewrite Z.pow_add_r by lia. pose proof (pow2_pos (E - ez) ltac:(lia)). nia. }
    apply pow2_lt_inv in Hpow; [|lia].
    pose proof (fexp_mono (d + ez) (dM + E) ltac:(lia)). lia. }
  set (K := Zpos M * 2 ^ (E - e')).
  assert (HK : Zpos mz <= K * 2 ^ n1).
  { unfold K. rewrite <- Z.mul_assoc, <- Z.pow_add_r by lia.
    replace (E - e' + n1) with (E - ez) by lia. exact Hle. }
  pose proof (pow2_pos n1 ltac:(lia)) as Hpn1.
  set (mr := round_nearest_even (shr_m mrs') (loc_of_shr_record mrs')).
  assert (Hmr : 0 <= mr <= K).
  { pose proof (round_nearest_even_bounds mrs') as Hb. fold mr in Hb.
    rewrite Hq1 in Hb.
    assert (0 <= Zpos mz / 2 ^ n1) by (apply Z.div_pos; lia).
    split; [lia|].
    destruct (shr_r mrs' || shr_s mrs')%bool.
    - pose proof (div_succ_le _ _ _ Hpn1 HK (proj1 Hf1 eq_refl)). lia.
    - pose proof (div_le _ _ _ Hpn1 HK). lia. }
  pose proof (shr_fexp_spec mr e' (proj1 Hmr)) as [[Hq2 _] He2].
  destruct (shr_fexp prec emax mr e' loc_Exact) as [mrs'' e''].
  cbn [fst snd] in *.
  set (n2 := Z.max 0 (fexp (Zdigits2 mr + e') - e')) in *.
  assert (He''E : e'' <= E).
  { destruct mr as [|p|p] eqn:Emr; cbn [Zdigits2] in *.
    - unfold SpecFloat.fexp in *. lia.
    - pose proof (digits2_bounds p) as Hdp.
      assert (Hpow : 2 ^ (Zpos (digits2_pos p) - 1) < 2 ^ (dM + (E - e'))).
      { rewrite Z.pow_add_r by lia. pose proof (pow2_pos (E - e') ltac:(lia)).
        unfold K in Hmr. nia. }
      apply pow2_lt_inv in Hpow; [|lia].
      pose proof (fexp_mono (Zpos (digits2_pos p) + e') (dM + E) ltac:(lia)). lia.
    - lia. }
  assert (Hm'' : shr_m mrs'' <= Zpos M * 2 ^ (E - e'')).
  { rewrite Hq2. pose proof (pow2_pos n2 ltac:(lia)) as Hpn2.
    apply div_le; [exact Hpn2|].
    rewrite <- Z.mul_assoc, <- Z.pow_add_r by lia.
    replace (E - e'' + n2) with (E - e') by lia. apply Hmr. }
  destruct (shr_m mrs'') as [|p|p]; [right; reflexivity| |left; reflexivity].
  right. replace (e'' <=? emax - prec) with true by (symmetry; apply Z.leb_le; lia).
  unfold SFleb, SFcompare.
  destruct (Z.compare_spec e'' E) as [Heq|Hlt|Hgt]; [|reflexivity|lia].
  replace (E - e'') with 0 in Hm'' by lia.
  rewrite Z.pow_0_r, Z.mul_1_r in Hm''.
  change (Pos.compare_cont Eq p M) with (Pos.compare p M).
  destruct (Pos.compare_spec p M); try reflexivity. lia.
Qed.

Lemma iter_xO_spec mx d :
  Zpos (Pos.iter xO mx d) = Zpos mx * 2 ^ Zpos d /\
  Zpos (digits2_pos (Pos.iter xO mx d)) = Zpos (digits2_pos mx) + Zpos d.
Proof.
  induction d as [|d IH] using Pos.peano_ind.
  - cbn [Pos.iter digits2_pos]. rewrite Pos2Z.inj_xO, Pos2Z.inj_succ. lia.
  - rewrite Pos.iter_succ. cbn [digits2_pos].
    rewrite Pos2Z.inj_xO, !Pos2Z.inj_succ, Z.pow_succ_r by lia. lia.
Qed.

Lemma shl_align_spec mx ex ex' :
  let '(mz, ez) := shl_align mx ex ex' in
  ez = Z.min ex ex' /\
  Zpos mz = Zpos mx * 2 ^ (ex - ez) /\
  Zpos (digits2_pos mz) + ez = Zpos (digits2_pos mx) + ex.
Proof.
  unfold shl_align. destruct (ex' - ex) as [|d|d] eqn:Hd.
  - replace (Z.min ex ex') with ex by lia. rewrite Z.sub_diag, Z.pow_0_r. lia.
  - replace (Z.min ex ex') with ex by lia. rewrite Z.sub_diag, Z.pow_0_r. lia.
  - destruct (iter_xO_spec mx d) as [Hv Hdig].
    replace (ex - ex') with (Zpos d) by lia. lia.
Qed.

Lemma binary_round_le mx ex M E :
  ex <= E -> Zpos mx <= Zpos M * 2 ^ (E - ex) ->
  fexp (Zpos (digits2_pos M) + E) = E -> E <= emax - prec ->
  let r := binary_round prec emax false mx ex in
  r = S754_nan \/ SFleb r (S754_finite false M E) = true.
Proof.
  intros HexE Hle Hcan Hmax. unfold binary_round.
  pose proof (shl_align_spec mx ex (fexp (Zpos (digits2_pos mx) + ex)))
    as Hal.
  destruct (shl_align mx ex _) as [mz ez]. destruct Hal as (Hez & Hmz & Hdig).
  apply binary_round_aux_le; try assumption.
  - rewrite Hdig. lia.
  - lia.
  - rewrite Hmz.
    replace (E - ez) with ((E - ex) + (ex - ez)) by lia.
    rewrite Z.pow_add_r by lia.
    pose proof (pow2_pos (ex - ez) ltac:(lia)). nia.
Qed.

(** *** Signs *)

Lemma binary_round_aux_sign s m e l :
  sign_or_nan s (binary_round_aux prec emax s m e l).
Proof.
  unfold binary_round_aux.
  destruct (shr_fexp prec emax m e l) as [mrs' e'].
  destruct (shr_fexp prec emax _ e' loc_Exact) as [mrs'' e''].
  destruct (shr_m mrs'') as [|p|p]; [reflexivity| |exact I].
  destruct (e'' <=? emax - prec); reflexivity.
Qed.

Lemma binary_round_sign s m e : sign_or_nan s (binary_round prec emax s m e).
Proof.
  unfold binary_round. destruct (shl_align m e _) as [mz ez].
  apply binary_round_aux_sign.
Qed.

Lemma SFmul_square x : sign_or_nan false (SF64mul x x).
Proof.
  destruct x as [s|s| |s m e]; cbn; try (destruct s; reflexivity); [exact I|].
  replace (xorb s s) with false by (destruct s; reflexivity).
  apply binary_round_aux_sign.
Qed.

Lemma SFmul_nonneg x y :
  sign_or_nan false x -> sign_or_nan false y -> sign_or_nan false (SF64mul x y).
Proof.
  destruct x as [s|s| |s m e], y as [s'|s'| |s' m' e']; cbn;
    intros Hx Hy; subst; try reflexivity; try exact I.
  apply binary_round_aux_sign.
Qed.

Lemma SFadd_nonneg x y :
  sign_or_nan false x -> sign_or_nan false y -> sign_or_nan false (SF64add x y).
Proof.
  destruct x as [s|s| |s m e], y as [s'|s'| |s' m' e']; cbn;
    intros Hx Hy; subst; try reflexivity; try exact I.
  unfold SF64add, SFadd. cbn [cond_Zopp].
  destruct (_ + _) as [|p|p] eqn:Hsum; cbn [binary_normalize];
    [reflexivity|apply binary_round_sign|lia].
Qed.

Lemma SFdiv_nonneg x y :
  sign_or_nan false x -> sign_or_nan false y -> sign_or_nan false (SF64div x y).
Proof.
  destruct x as [s|s| |s m e], y as [s'|s'| |s' m' e']; cbn -[SFdiv_core_binary];
    intros Hx Hy; subst; try reflexivity; try exact I.
  destruct (SFdiv_core_binary _ _ _ _ _ _) as [[mz ez] lz].
  apply binary_round_aux_sign.
Qed.

Lemma SFleb_refl_finite M E :
  SFleb (S754_finite false M E) (S754_finite false M E) = true.
Proof.
  unfold SFleb, SFcompare. rewrite Z.compare_refl.
  change (Pos.compare_cont Eq M M) with (Pos.compare M M).
  rewrite Pos.compare_refl. reflexivity.
Qed.

Lemma SFleb_negative r M E :
  sign_or_nan true r -> r = S754_nan \/ SFleb r (S754_finite false M E) = true.
Proof. destruct r as [s|s| |s m e]; cbn; intros H; subst; auto. Qed.

(** Subtracting a non-negative double from a positive one gives no more
    than the positive one. *)
Lemma SFsub_le M E w :
  fexp (Zpos (digits2_pos M) + E) = E -> E <= emax - prec ->
  sign_or_nan false w ->
  let r := SF64sub (S754_finite false M E) w in
  r = S754_nan \/ SFleb r (S754_finite false M E) = true.
Proof.
  intros Hcan Hmax Hw.
  destruct w as [s|s| |s mw ew]; cbn [sign_or_nan] in Hw; subst;
    cbn -[SFleb binary_normalize shl_align Z.sub Z.add Z.min].
  - right. apply SFleb_refl_finite.
  - right. reflexivity.
  - left. reflexivity.
  - cbn [cond_Zopp].
    pose proof (shl_align_spec M E (Z.min E ew)) as H1.
    pose proof (shl_align_spec mw ew (Z.min E ew)) as H2.
    destruct (shl_align M E (Z.min E ew)) as [m1 e1].
    destruct (shl_align mw ew (Z.min E ew)) as [m2 e2].
    cbn [fst]. destruct H1 as (He1 & Hm1 & _).
    destruct (Zpos m1 - Zpos m2) as [|p|p] eqn:Hdiff; cbn [binary_normalize].
    + right. reflexivity.
    + apply binary_round_le; try assumption; [lia|].
      replace (E - Z.min E ew) with (E - e1) by lia. lia.
    + apply SFleb_negative, binary_round_sign.
Qed.

(** *** Exact results *)

Lemma digits2_unique m k :
  2 ^ (k - 1) <= Zpos m < 2 ^ k -> Zpos (digits2_pos m) = k.
Proof.
  intros [Hlo Hhi]. pose proof (digits2_bounds m) as [Hlo' Hhi'].
  assert (0 < k).
  { destruct (Z_lt_le_dec 0 k); [assumption|].
    assert (2 ^ k <= 2 ^ 0) by (apply Z.pow_le_mono_r; lia).
    change (2 ^ 0) with 1 in *. lia. }
  assert (k - 1 < Zpos (digits2_pos m)) by (apply pow2_lt_inv; lia).
  assert (Zpos (digits2_pos m) - 1 < k) by (apply pow2_lt_inv; lia).
  lia.
Qed.

Lemma digits2_shift M k mz :
  0 <= k -> Zpos mz = Zpos M * 2 ^ k ->
  Zpos (digits2_pos mz) = Zpos (digits2_pos M) + k.
Proof.
  intros Hk Hmz. apply digits2_unique. rewrite Hmz.
  pose proof (digits2_bounds M) as [Hlo Hhi].
  pose proof (pow2_pos k Hk).
  replace (Zpos (digits2_pos M) + k - 1) with (Zpos (digits2_pos M) - 1 + k) by lia.
  rewrite !Z.pow_add_r by lia. nia.
Qed.

(** A value that is a canonical double is rounded to itself. *)
Lemma binary_round_aux_exact s mz ez M E :
  ez <= E -> Zpos mz = Zpos M * 2 ^ (E - ez) ->
  fexp (Zpos (digits2_pos M) + E) = E -> E <= emax - prec ->
  binary_round_aux prec emax s (Zpos mz) ez loc_Exact = S754_finite s M E.
Proof.
  intros HezE Hmz Hcan Hmax. unfold binary_round_aux.
  pose proof (shr_fexp_spec (Zpos mz) ez ltac:(lia)) as [[Hq1 Hf1] He1].
  destruct (shr_fexp prec emax (Zpos mz) ez loc_Exact) as [mrs' e'].
  cbn [fst snd Zdigits2] in *.
  rewrite (digits2_shift M (E - ez) mz) in * by (lia || assumption).
  replace (Zpos (digits2_pos M) + (E - ez) + ez)
    with (Zpos (digits2_pos M) + E) in * by lia.
  rewrite Hcan in *.
  replace (Z.max 0 (E - ez)) with (E - ez) in * by lia.
  pose proof (pow2_pos (E - ez) ltac:(lia)) as Hp.
  rewrite Hmz, Z.div_mul in Hq1 by lia.
  rewrite Hmz, Z.mod_mul in Hf1 by lia.
  assert (Hflags : (shr_r mrs' || shr_s mrs')%bool = false).
  { destruct (shr_r mrs' || shr_s mrs')%bool; [|reflexivity].
    exfalso. apply (proj1 Hf1); reflexivity. }
  assert (Hmr : round_nearest_even (shr_m mrs') (loc_of_shr_record mrs') = Zpos M).
  { destruct mrs' as [m r s']. cbn [shr_m shr_r shr_s] in *. subst m.
    destruct r, s'; try discriminate. reflexivity. }
  rewrite Hmr.
  pose proof (shr_fexp_spec (Zpos M) e' ltac:(lia)) as [[Hq2 _] He2].
  destruct (shr_fexp prec emax (Zpos M) e' loc_Exact) as [mrs'' e''].
  cbn [fst snd Zdigits2] in *.
  replace e' with E in * by lia. rewrite Hcan, Z.sub_diag in *.
  cbn [Z.max] in *. rewrite Z.pow_0_r, Z.div_1_r in Hq2. rewrite Hq2.
  replace e'' with E by lia.
  replace (E <=? emax - prec) with true by (symmetry; apply Z.leb_le; lia).
  reflexivity.
Qed.

Lemma binary_round_exact s mx ex M E :
  ex <= E -> Zpos mx = Zpos M * 2 ^ (E - ex) ->
  fexp (Zpos (digits2_pos M) + E) = E -> E <= emax - prec ->
  binary_round prec emax s mx ex = S754_finite s M E.
Proof.
  intros HexE Hmx Hcan Hmax. unfold binary_round.
  pose proof (shl_align_spec mx ex (fexp (Zpos (digits2_pos mx) + ex)))
    as Hal.
  destruct (shl_align mx ex _) as [mz ez]. destruct Hal as (Hez & Hmz & Hdig).
  apply binary_round_aux_exact; try assumption; [lia|].
  rewrite Hmz, Hmx.
  replace (E - ez) with ((E - ex) + (ex - ez)) by lia.
  rewrite Z.pow_add_r by lia. ring.
Qed.

Lemma SFdiv_core_exact (m1 m2 q : positive) (e1 e2 e' : Z) :
  e' = Z.min (fexp (Zpos (digits2_pos m1) + e1 - (Zpos (digits2_pos m2) + e2)))
             (e1 - e2) ->
  Zpos m1 * 2 ^ (e1 - e2 - e') = Zpos q * Zpos m2 ->
  SFdiv_core_binary prec emax (Zpos m1) e1 (Zpos m2) e2 = (Zpos q, e', loc_Exact).
Proof.
  intros He' Hq. unfold SFdiv_core_binary. cbn [Zdigits2]. rewrite <- He'.
  assert (Hm' : match e1 - e2 - e' with
                | 0 => Zpos m1
                | Zpos _ => Z.shiftl (Zpos m1) (e1 - e2 - e')
                | Zneg _ => 0
                end = Zpos q * Zpos m2).
  { rewrite <- Hq. destruct (e1 - e2 - e') as [|p|p] eqn:Hs.
    - rewrite Z.pow_0_r. lia.
    - rewrite Z.shiftl_mul_pow2 by lia. reflexivity.
    - lia. }
  rewrite Hm'.
  destruct (Z.div_eucl (Zpos q * Zpos m2) (Zpos m2)) as [q' r'] eqn:Hde.
  assert (Hq' : q' = Zpos q * Zpos m2 / Zpos m2)
    by (unfold Z.div; rewrite Hde; reflexivity).
  assert (Hr' : r' = (Zpos q * Zpos m2) mod Zpos m2)
    by (unfold Z.modulo; rewrite Hde; reflexivity).
  rewrite Z.div_mul in Hq' by lia. rewrite Z.mod_mul in Hr' by lia. subst q' r'.
  unfold new_location, new_location_even, new_location_odd.
  destruct (Z.even (Zpos m2)); reflexivity.
Qed.

(** *** Sums and means of one value *)

Section OneValue.
Variables (s : bool) (m : positive) (e : Z).
Hypothesis Hvalid : bounded prec emax m e = true.
Hypothesis Hroom : -1072 <= e <= 969.

Lemma normal_digits : Zpos (digits2_pos m) = 53.
Proof.
  unfold bounded, canonical_mantissa in Hvalid.
  apply andb_prop in Hvalid as [Hcan _]. apply Z.eqb_eq in Hcan.
  unfold SpecFloat.fexp, emin, prec, emax in Hcan. lia.
Qed.

Lemma canonical_at k : -1074 <= k -> fexp (Zpos (digits2_pos m) + k) = k.
Proof. intros. rewrite normal_digits. unfold SpecFloat.fexp, emin, prec, emax. lia. Qed.

Lemma SFadd_self :
  SF64add (S754_finite s m e) (S754_finite s m e) = S754_finite s m (e + 1).
Proof.
  unfold SF64add, SFadd. cbv zeta.
  pose proof (shl_align_spec m e (Z.min e e)) as Hal.
  destruct (shl_align m e (Z.min e e)) as [m1 e1]. cbn [fst].
  destruct Hal as (He1 & Hm1 & _).
  replace (e - e1) with 0 in Hm1 by lia. rewrite Z.pow_0_r, Z.mul_1_r in Hm1.
  injection Hm1 as ->. replace (Z.min e e) with e by lia.
  assert (Hex : forall sg, binary_round prec emax sg (m + m) e = S754_finite sg m (e + 1)).
  { intros sg. apply binary_round_exact.
    - lia.
    - replace (e + 1 - e) with 1 by lia. rewrite Pos2Z.inj_add. lia.
    - apply canonical_at. lia.
    - unfold emax, prec. lia. }
  destruct s; cbn [cond_Zopp Z.opp Z.add binary_normalize]; apply Hex.
Qed.

Lemma SFdiv_two :
  SF64div (S754_finite s m (e + 1)) (S754_finite false 4503599627370496 (-51))
  = S754_finite s m e.
Proof.
  unfold SF64div, SFdiv.
  rewrite (SFdiv_core_exact m 4503599627370496 (m + m) (e + 1) (-51) (e - 1)).
  - replace (xorb s false) with s by (destruct s; reflexivity).
    apply binary_round_aux_exact.
    + lia.
    + replace (e - (e - 1)) with 1 by lia. rewrite Pos2Z.inj_add. lia.
    + apply canonical_at. lia.
    + unfold emax, prec. lia.
  - rewrite normal_digits. change (Zpos (digits2_pos 4503599627370496)) with 53.
    unfold SpecFloat.fexp, emin, prec, emax. lia.
  - replace (e + 1 - -51 - (e - 1)) with 53 by lia. rewrite Pos2Z.inj_add. lia.
Qed.

Hypothesis Hspare : (4 | Zpos m).

Lemma SFadd_third :
  exists M E,
    SF64add (S754_finite s m (e + 1)) (S754_finite s m e) = S754_finite s M E /\
    Zpos (digits2_pos M) = 53 /\ e + 1 <= E <= e + 2 /\
    3 * Zpos m = Zpos M * 2 ^ (E - e).
Proof.
  destruct Hspare as [k Hk].
  pose proof (digits2_bounds m) as Hb. rewrite normal_digits in Hb.
  change (2 ^ (53 - 1)) with 4503599627370496 in Hb.
  change (2 ^ 53) with 9007199254740992 in Hb.
  assert (Hsum : forall M E, e <= E -> E <= emax - prec ->
            Zpos (digits2_pos M) = 53 -> 3 * Zpos m = Zpos M * 2 ^ (E - e) ->
            SF64add (S754_finite s m (e + 1)) (S754_finite s m e) = S754_finite s M E).
  { intros M E HE Hmax HdM HM. unfold SF64add, SFadd. cbv zeta.
    pose proof (shl_align_spec m (e + 1) (Z.min (e + 1) e)) as Hal1.
    pose proof (shl_align_spec m e (Z.min (e + 1) e)) as Hal2.
    destruct (shl_align m (e + 1) (Z.min (e + 1) e)) as [m1 e1].
    destruct (shl_align m e (Z.min (e + 1) e)) as [m2 e2]. cbn [fst].
    destruct Hal1 as (He1 & Hm1 & _). destruct Hal2 as (He2 & Hm2 & _).
    replace (e + 1 - e1) with 1 in Hm1 by lia.
    replace (e - e2) with 0 in Hm2 by lia.
    rewrite Z.pow_0_r, Z.mul_1_r in Hm2. injection Hm2 as ->.
    replace (Z.min (e + 1) e) with e by lia.
    assert (Hex : forall sg, binary_round prec emax sg (m1 + m) e = S754_finite sg M E).
    { intros sg. apply binary_round_exact; try assumption.
      - rewrite Pos2Z.inj_add, <- HM. lia.
      - rewrite HdM. unfold SpecFloat.fexp, emin, prec, emax. lia. }
    destruct s; cbn [cond_Zopp Z.opp Z.add binary_normalize]; apply Hex. }
  destruct (Z_lt_le_dec (3 * Zpos m) 18014398509481984) as [Hlt|Hge].
  - assert (HM : 0 < 6 * k) by lia.
    destruct (6 * k) as [|M|M] eqn:HMk; try lia.
    assert (HdM : Zpos (digits2_pos M) = 53).
    { apply digits2_unique. change (2 ^ (53 - 1)) with 4503599627370496.
      change (2 ^ 53) with 9007199254740992. lia. }
    exists M, (e + 1). split; [|split; [exact HdM|split; [lia|]]].
    + apply Hsum; [lia|unfold emax, prec; lia|exact HdM|].
      replace (e + 1 - e) with 1 by lia. lia.
    + replace (e + 1 - e) with 1 by lia. lia.
  - assert (HM : 0 < 3 * k) by lia.
    destruct (3 * k) as [|M|M] eqn:HMk; try lia.
    assert (HdM : Zpos (digits2_pos M) = 53).
    { apply digits2_unique. change (2 ^ (53 - 1)) with 4503599627370496.
      change (2 ^ 53) with 9007199254740992. lia. }
    exists M, (e + 2). split; [|split; [exact HdM|split; [lia|]]].
    + apply Hsum; [lia|unfold emax, prec; lia|exact HdM|].
      replace (e + 2 - e) with 2 by lia. lia.
    + replace (e + 2 - e) with 2 by lia. lia.
Qed.

Lemma SFdiv_three M E :
  Zpos (digits2_pos M) = 53 -> e + 1 <= E <= e + 2 ->
  3 * Zpos m = Zpos M * 2 ^ (E - e) ->
  SF64div (S754_finite s M E) (S754_finite false 6755399441055744 (-51))
  = S754_finite s m e.
Proof.
  intros HdM HE HM.
  assert (Hq : 0 < Zpos m * 2 ^ (e + 2 - E)).
  { pose proof (pow2_pos (e + 2 - E) ltac:(lia)). lia. }
  destruct (Zpos m * 2 ^ (e + 2 - E)) as [|q|q] eqn:Hqe; try lia.
  unfold SF64div, SFdiv.
  rewrite (SFdiv_core_exact M 6755399441055744 q E (-51) (E - 2)).
  - replace (xorb s false) with s by (destruct s; reflexivity).
    apply binary_round_aux_exact.
    + lia.
    + rewrite <- Hqe. replace (e - (E - 2)) with (e + 2 - E) by lia. reflexivity.
    + apply canonical_at. lia.
    + unfold emax, prec. lia.
  - rewrite HdM. change (Zpos (digits2_pos 6755399441055744)) with 53.
    unfold SpecFloat.fexp, emin, prec, emax. lia.
  - replace (E - -51 - (E - 2)) with 53 by lia. rewrite <- Hqe.
    assert (Hpow : 2 ^ (E - e) * 2 ^ (e + 2 - E) = 4).
    { rewrite <- Z.pow_add_r by lia. replace (E - e + (e + 2 - E)) with 2 by lia.
      reflexivity. }
    change (2 ^ 53) with 9007199254740992. nia.
Qed.

End OneValue.

End Rounding.

(** ** Facts on the built-ins *)

Module JsProps.

Lemma newSet_fold_spec {A} `{EqDecision A} (values set : list A) :
  NoDup set ->
  let s := fold_left (fun set v => if existsb (fun w => bool_decide (w = v)) set
                                   then set else set ++ [v]) values set in
  NoDup s /\ forall x, In x s <-> In x set \/ In x values.
Proof.
  revert set. induction values as [|v values IH]; intros set Hnd; cbn [fold_left].
  - split; [assumption|]. intros x. cbn. tauto.
  - destruct (existsb _ set) eqn:Hex.
    + destruct (IH set Hnd) as [Hn Hin]. split; [assumption|].
      intros x. rewrite Hin. cbn [In].
      apply existsb_exists in Hex as (w & Hw & Heq).
      apply bool_decide_eq_true in Heq. subst w.
      split; [tauto|]. intros [?|[<-|?]]; tauto.
    + assert (Hnot : ~ In v set).
      { intros Hv. apply not_true_iff_false in Hex. apply Hex.
        apply existsb_exists. exists v. split; [assumption|].
        apply bool_decide_eq_true. reflexivity. }
      assert (Hnd' : NoDup (set ++ [v])).
      { apply NoDup_app. split; [assumption|]. split.
        - intros x Hx Hx'. apply list_elem_of_In in Hx, Hx'.
          destruct Hx' as [<-|[]]. contradiction.
        - apply NoDup_singleton. }
      destruct (IH _ Hnd') as [Hn Hin]. split; [assumption|].
      intros x. rewrite Hin, in_app_iff. cbn [In]. tauto.
Qed.

Lemma newSet_NoDup {A} `{EqDecision A} (values : list A) : NoDup (newSet values).
Proof. apply (newSet_fold_spec values []). constructor. Qed.

Lemma newSet_In {A} `{EqDecision A} (values : list A) x :
  In x (newSet values) <-> In x values.
Proof.
  destruct (newSet_fold_spec values [] (NoDup_nil_2)) as [_ H].
  unfold newSet. rewrite H. cbn. tauto.
Qed.

Lemma newSet_snoc {A} `{EqDecision A} (l : list A) (x : A) :
  newSet (l ++ [x]) =
  if existsb (fun w => bool_decide (w = x)) (newSet l)
  then newSet l else newSet l ++ [x].
Proof. unfold newSet. rewrite fold_left_app. reflexivity. Qed.

Lemma existsb_category (cats : list string) (c : string) :
  existsb (fun w => bool_decide (w = c)) cats = true <-> In c cats.
Proof.
  rewrite existsb_exists. split.
  - intros (w & Hw & Heq). apply bool_decide_eq_true in Heq. subst. assumption.
  - intros Hc. exists c. split; [assumption|]. apply bool_decide_eq_true. reflexivity.
Qed.

End JsProps.

Module AppProps.
Import App JsProps.

Lemma msPerDay_pos : 0 < msPerDay.
Proof. reflexivity. Qed.

Lemma ceil_div_le a b k : 0 < b -> (ceil_div a b <=? k) = (a <=? k * b).
Proof.
  intros Hb. unfold ceil_div.
  pose proof (Z.div_mod (- a) b ltac:(lia)) as Hdm.
  pose proof (Z.mod_pos_bound (- a) b Hb) as Hm.
  destruct (Z.leb_spec a (k * b)); [apply Z.leb_le | apply Z.leb_gt]; nia.
Qed.

Lemma addDays_window tz date amount :
  amount <> 0 ->
  addDays tz date amount =
  date + amount * msPerDay
  + (tz date true - tz (LocalTime tz date + amount * msPerDay) false).
Proof.
  intros Hamount. unfold addDays, UTC, LocalTime.
  destruct (Z.eqb_spec amount 0) as [->|_]; lia.
Qed.

Lemma addDays_sameOffset tz date amount :
  sameOffset tz date amount -> addDays tz date amount = date + amount * msPerDay.
Proof.
  unfold sameOffset. intros H.
  destruct (Z.eq_dec amount 0) as [->|Hamount].
  - unfold addDays. cbn. lia.
  - rewrite addDays_window, H by exact Hamount. lia.
Qed.

Lemma inBucket_exclusive days b1 b2 :
  inBucket b1 days = true -> inBucket b2 days = true -> b1 = b2.
Proof. destruct b1, b2; cbn; intros; try reflexivity; lia. Qed.

Lemma inBucket_exhaustive days : exists b, inBucket b days = true.
Proof.
  destruct (Z.leb_spec days 0); [exists Expired; cbn; lia|].
  destruct (Z.leb_spec days 3); [exists Critical; cbn; lia|].
  destruct (Z.leb_spec days 7); [exists Warning; cbn; lia|].
  exists Safe; cbn; lia.
Qed.

Section AnyArithmetic.
Context `{N : Number}.

Lemma expiryStep_bucket now acc item b :
  bucketTotal b (expiryStep now acc item) =
  if inBucket b (daysUntilExpiry now item)
  then addValue (bucketTotal b acc) item
  else bucketTotal b acc.
Proof.
  unfold expiryStep, addValue.
  destruct (Z.leb_spec (daysUntilExpiry now item) 0);
    [|destruct (Z.leb_spec (daysUntilExpiry now item) 3);
      [|destruct (Z.leb_spec (daysUntilExpiry now item) 7)]];
    destruct b; cbn [bucketTotal inBucket expired critical warning safe];
    repeat match goal with
           | |- context [?x <=? ?y] => destruct (Z.leb_spec x y); try lia
           | |- context [?x <? ?y] => destruct (Z.ltb_spec x y); try lia
           end; cbn [andb]; reflexivity.
Qed.

Lemma expiry_fold_bucket now b inventory acc :
  bucketTotal b (fold_left (expiryStep now) inventory acc) =
  fold_left addValue (itemsIn b now inventory) (bucketTotal b acc).
Proof.
  revert acc. induction inventory as [|item rest IH]; intros acc; [reflexivity|].
  cbn [fold_left itemsIn List.filter]. rewrite IH, expiryStep_bucket.
  fold (itemsIn b now rest).
  destruct (inBucket b (daysUntilExpiry now item)); reflexivity.
Qed.

Lemma atRisk_filter tz now (item : FoodItem N) :
  sameOffset tz now 3 ->
  (expiryDate item <=? addDays tz now 3) =
  (inBucket Expired (daysUntilExpiry now item)
   || inBucket Critical (daysUntilExpiry now item)).
Proof.
  intros Hsame. rewrite (addDays_sameOffset tz now 3 Hsame).
  unfold daysUntilExpiry. cbn [inBucket].
  set (d := ceil_div (expiryDate item - now) msPerDay).
  assert (Hd : (d <=? 3) = (expiryDate item - now <=? 3 * msPerDay))
    by apply ceil_div_le, msPerDay_pos.
  destruct (Z.leb_spec d 0), (Z.leb_spec 1 d), (Z.leb_spec d 3);
    cbn [orb andb];
    destruct (Z.leb_spec (expiryDate item) (now + 3 * msPerDay));
    destruct (Z.leb_spec (expiryDate item - now) (3 * msPerDay));
    try reflexivity; try discriminate; lia.
Qed.
(** *** The category roll-up, in any arithmetic *)

Lemma runningSum_snoc {A} (f : A -> num) (l : list A) (x : A) :
  l <> [] -> runningSum f (l ++ [x]) = (runningSum f l + f x)%js.
Proof.
  destruct l as [|y l]; [congruence|]. intros _.
  cbn [app runningSum]. rewrite fold_left_app. reflexivity.
Qed.

Lemma mutate_first_unique {A} (key : A -> string) (c : string) (f : A -> A)
      (l : list A) :
  NoDup (List.map key l) ->
  mutate_first (fun x => String.eqb (key x) c) f l =
  List.map (fun x => if String.eqb (key x) c then f x else x) l.
Proof.
  induction l as [|x l IH]; intros Hnd; [reflexivity|].
  cbn [List.map] in Hnd. apply NoDup_cons in Hnd as [Hx Hnd].
  cbn [mutate_first List.map].
  destruct (String.eqb_spec (key x) c) as [Heq|Hne].
  - f_equal. symmetry. rewrite <- (List.map_id l) at 2.
    apply List.map_ext_in. intros y Hy.
    destruct (String.eqb_spec (key y) c) as [Hy'|]; [|reflexivity].
    exfalso. apply Hx. rewrite Heq, <- Hy'.
    apply list_elem_of_In, in_map, Hy.
  - f_equal. apply IH, Hnd.
Qed.

Lemma find_category_rows (rows : list (CategoryTotal N)) (c : string) :
  (exists row, List.find (fun r => String.eqb (ct_category r) c) rows = Some row)
  <-> In c (List.map ct_category rows).
Proof.
  induction rows as [|r rows IH]; cbn [List.find List.map In].
  - split; [intros [? [=]]|intros []].
  - destruct (String.eqb_spec (ct_category r) c) as [Heq|Hne].
    + split; eauto.
    + rewrite IH. split; [auto|]. intros [?|?]; [contradiction|assumption].
Qed.

Lemma categoryItems_snoc (c : string) (inventory : list (FoodItem N)) item :
  categoryItems c (inventory ++ [item]) =
  categoryItems c inventory ++ (if String.eqb (category item) c then [item] else []).
Proof. unfold categoryItems. rewrite List.filter_app. reflexivity. Qed.

Lemma categoryItems_nonempty (c : string) (inventory : list (FoodItem N)) :
  In c (List.map category inventory) -> categoryItems c inventory <> [].
Proof.
  intros Hc. apply in_map_iff in Hc as (item & Heq & Hin).
  intros Hnil.
  assert (Hitem : In item (categoryItems c inventory)).
  { apply filter_In. split; [assumption|]. apply String.eqb_eq, Heq. }
  rewrite Hnil in Hitem. destruct Hitem.
Qed.

Lemma categoryItems_empty (c : string) (inventory : list (FoodItem N)) :
  ~ In c (List.map category inventory) -> categoryItems c inventory = [].
Proof.
  intros Hc. unfold categoryItems.
  induction inventory as [|item rest IH]; [reflexivity|].
  cbn [List.filter]. cbn [List.map In] in Hc.
  destruct (String.eqb_spec (category item) c) as [Heq|Hne]; [tauto|].
  apply IH. tauto.
Qed.

Lemma trendStep_rowsOk inventory rows item :
  rowsOk inventory rows -> rowsOk (inventory ++ [item]) (trendStep rows item).
Proof.
  intros [Hcats Hrows].
  assert (Hnd : NoDup (List.map ct_category rows))
    by (rewrite Hcats; apply newSet_NoDup).
  assert (Hmem : forall c, In c (List.map ct_category rows) <->
                           In c (List.map category inventory))
    by (intros c; rewrite Hcats; apply newSet_In).
  unfold trendStep, rowsOk. rewrite List.map_app. cbn [List.map]. rewrite newSet_snoc.
  destruct (List.find _ rows) as [found|] eqn:Hfind.
  - assert (Hin : In (category item) (List.map ct_category rows))
      by (apply find_category_rows; eauto).
    rewrite (mutate_first_unique ct_category (category item)) by assumption.
    split.
    + rewrite <- Hcats.
      rewrite (proj2 (existsb_category _ _) Hin).
      rewrite List.map_map. apply List.map_ext. intros row.
      destruct (String.eqb (ct_category row) (category item)); reflexivity.
    + intros row' Hrow'. apply in_map_iff in Hrow' as (row & <- & Hrow).
      destruct (Hrows row Hrow) as [Hv Hq].
      rewrite !categoryItems_snoc.
      destruct (String.eqb_spec (ct_category row) (category item)) as [Heq|Hne].
      * cbn [ct_category ct_value ct_quantity].
        rewrite (proj2 (String.eqb_eq _ _) (eq_sym Heq)).
        assert (Hne : categoryItems (ct_category row) inventory <> []).
        { apply categoryItems_nonempty, Hmem. rewrite Heq. exact Hin. }
        rewrite !runningSum_snoc by assumption. rewrite Hv, Hq. split; reflexivity.
      * rewrite (proj2 (String.eqb_neq _ _)) by congruence.
        rewrite !app_nil_r. split; assumption.
  - assert (Hout : ~ In (category item) (List.map ct_category rows)).
    { intros Hin. apply find_category_rows in Hin as [row Hrow]. congruence. }
    split.
    + rewrite List.map_app. cbn [List.map ct_category]. rewrite <- Hcats.
      destruct (existsb _ _) eqn:Hex; [|reflexivity].
      apply existsb_category in Hex. contradiction.
    + intros row Hrow. rewrite !categoryItems_snoc.
      apply in_app_iff in Hrow as [Hrow | [<- | []]].
      * destruct (Hrows row Hrow) as [Hv Hq].
        rewrite (proj2 (String.eqb_neq _ _)).
        -- rewrite !app_nil_r. split; assumption.
        -- intros Heq. apply Hout. rewrite Heq. apply in_map, Hrow.
      * cbn [ct_category ct_value ct_quantity]. rewrite String.eqb_refl.
        rewrite categoryItems_empty by (rewrite <- Hmem; exact Hout).
        split; reflexivity.
Qed.

Lemma rollup_rowsOk (inventory : list (FoodItem N)) :
  rowsOk inventory (prepareInventoryTrendData inventory).
Proof.
  unfold prepareInventoryTrendData.
  induction inventory as [|item inventory IH] using rev_ind.
  - split; [reflexivity|]. intros row [].
  - rewrite fold_left_app. cbn [fold_left]. apply trendStep_rowsOk, IH.
Qed.
End AnyArithmetic.


(** *** Exact arithmetic *)
Section ExactArithmetic.
Local Existing Instance Real | 0.
Local Open Scope R_scope.

Local Abbreviation value item := (Rmult (quantity item) (costPerKg item)).

Lemma fold_addValue_from (l : list (FoodItem Real)) (a : R) :
  fold_left addValue l a = a + fold_left addValue l 0.
Proof.
  revert a. induction l as [|x l IH]; intros a; cbn [fold_left].
  - lra.
  - rewrite IH, (IH (@addValue Real 0 x)). unfold addValue. real_arith. lra.
Qed.

Lemma total_cons (x : FoodItem Real) l :
  calculateTotalInventoryValue (x :: l) = value x + calculateTotalInventoryValue l.
Proof.
  unfold calculateTotalInventoryValue. cbn [fold_left].
  change (fold_left addValue l (addValue (nofZ 0) x) =
          value x + fold_left addValue l (nofZ 0)).
  rewrite fold_addValue_from. unfold addValue. real_arith. lra.
Qed.

Lemma sum_by_from {A} (f : A -> R) (l : list A) (a : R) :
  fold_left (fun total x => total + f x) l a = a + sum_by f l.
Proof.
  unfold sum_by. real_arith.
  revert a. induction l as [|x l IH]; intros a; cbn [fold_left].
  - lra.
  - rewrite IH, (IH (0 + f x)). lra.
Qed.

Lemma sum_by_cons {A} (f : A -> R) x l : sum_by f (x :: l) = f x + sum_by f l.
Proof.
  unfold sum_by at 1. real_arith. cbn [fold_left]. rewrite sum_by_from. lra.
Qed.

Lemma sum_by_nil {A} (f : A -> R) : sum_by f [] = 0.
Proof. reflexivity. Qed.

Lemma sum_by_snoc {A} (f : A -> R) x l : sum_by f (l ++ [x]) = sum_by f l + f x.
Proof.
  induction l as [|y l IH]; cbn [app].
  - rewrite !sum_by_cons, sum_by_nil. lra.
  - rewrite !sum_by_cons, IH. lra.
Qed.

Lemma sum_by_mutate_first (p : CategoryTotal Real -> bool) (q v : R)
      (acc : list (CategoryTotal Real)) :
  (exists c, List.find p acc = Some c) ->
  sum_by ct_value
    (mutate_first p (fun c => {| ct_category := ct_category c;
                                 ct_quantity := ct_quantity c + q;
                                 ct_value := ct_value c + v |}) acc)
  = sum_by ct_value acc + v.
Proof.
  induction acc as [|c acc IH]; cbn [List.find mutate_first].
  - intros [c Hc]. discriminate.
  - destruct (p c); intros Hfind; rewrite !sum_by_cons.
    + cbn [ct_value]. lra.
    + rewrite (IH Hfind). lra.
Qed.

Lemma trendStep_value (acc : list (CategoryTotal Real)) (item : FoodItem Real) :
  sum_by ct_value (trendStep acc item) = sum_by ct_value acc + value item.
Proof.
  unfold trendStep.
  destruct (List.find _ acc) as [c|] eqn:Hfind.
  - real_arith. apply sum_by_mutate_first. eauto.
  - rewrite sum_by_snoc. reflexivity.
Qed.

Lemma trend_fold_value (inventory : list (FoodItem Real)) acc :
  sum_by ct_value (fold_left trendStep inventory acc) =
  sum_by ct_value acc + calculateTotalInventoryValue inventory.
Proof.
  revert acc. induction inventory as [|item rest IH]; intros acc.
  - change (calculateTotalInventoryValue []) with 0. cbn [fold_left]. lra.
  - cbn [fold_left]. rewrite IH, trendStep_value, total_cons. lra.
Qed.

Lemma expiryStep_sum now (acc : ExpiryRanges Real) item :
  sumOfBuckets (expiryStep now acc item) = sumOfBuckets acc + value item.
Proof.
  unfold expiryStep, sumOfBuckets. real_arith.
  repeat match goal with |- context [if ?c then _ else _] => destruct c end;
    cbn [expired critical warning safe]; lra.
Qed.

Lemma expiry_fold_sum now (inventory : list (FoodItem Real)) acc :
  sumOfBuckets (fold_left (expiryStep now) inventory acc) =
  sumOfBuckets acc + calculateTotalInventoryValue inventory.
Proof.
  revert acc. induction inventory as [|item rest IH]; intros acc.
  - change (calculateTotalInventoryValue []) with 0. cbn [fold_left]. lra.
  - cbn [fold_left]. rewrite IH, expiryStep_sum, total_cons. lra.
Qed.

Lemma atRisk_split tz now (inventory : list (FoodItem Real)) :
  sameOffset tz now 3 ->
  atRiskValue tz now inventory =
  calculateTotalInventoryValue (itemsIn Expired now inventory) +
  calculateTotalInventoryValue (itemsIn Critical now inventory).
Proof.
  intros Hsame. unfold atRiskValue.
  change (calculateTotalInventoryValue
            (List.filter (fun item => expiryDate item <=? addDays tz now 3) inventory) =
          calculateTotalInventoryValue (itemsIn Expired now inventory) +
          calculateTotalInventoryValue (itemsIn Critical now inventory)).
  induction inventory as [|item rest IH]; cbn [List.filter itemsIn].
  - change (calculateTotalInventoryValue []) with 0. lra.
  - fold (itemsIn Expired now rest). fold (itemsIn Critical now rest).
    rewrite (atRisk_filter tz now item Hsame).
    destruct (inBucket Expired (daysUntilExpiry now item)) eqn:He;
      destruct (inBucket Critical (daysUntilExpiry now item)) eqn:Hc;
      cbn [orb]; rewrite ?total_cons, IH; try lra.
    pose proof (inBucket_exclusive _ _ _ He Hc). discriminate.
Qed.
End ExactArithmetic.

End AppProps.

Module ForecasterProps.
Import WastePredictionModel JsProps.

Ltac monad_unfold :=
  unfold bind, call, ret, throw, modify, get in *.

Section AnyLibrary.
Context `{N : Number} {L : Library N}.

Implicit Types (st : State L) (input : WastePredictionInput N).

(** *** [predict] *)

Lemma predict_untrained_throws input st :
  model st = None \/ mlr st = None ->
  predict input st = (Throw (Error "Model not trained"), st).
Proof.
  unfold predict; monad_unfold.
  intros [H | H]; rewrite H; [|destruct (model st)]; reflexivity.
Qed.

Lemma predict_trained input st net lin :
  model st = Some net -> mlr st = Some lin ->
  exists r, predict input st = (Ok r, st) /\
    nnPrediction r = tf_predict L net (featureRow input) /\
    mlrPrediction r = mlr_predict L lin (featureRow input) /\
    categoryPrediction r =
      match category input with
      | Some c => if truthy (Some c)
                  then option_map (fun m => tf_predict L m (featureRow input))
                                  (categoryModels st !! c)
                  else None
      | None => None
      end /\
    confidence r = confidenceOf (available r).
Proof.
  intros Hm Hl. unfold predict; monad_unfold. rewrite Hm, Hl.
  eexists; split; [reflexivity|].
  cbn [nnPrediction mlrPrediction categoryPrediction confidence].
  repeat split.
Qed.

Lemma predict_state input st : snd (predict input st) = st.
Proof.
  unfold predict; monad_unfold.
  destruct (model st), (mlr st); reflexivity.
Qed.

Lemma predict_ok_inv input st r st' :
  predict input st = (Ok r, st') ->
  exists net lin, model st = Some net /\ mlr st = Some lin.
Proof.
  unfold predict; monad_unfold.
  destruct (model st), (mlr st); intros H; try discriminate; eauto.
Qed.

(** *** [train] *)

Lemma train_categoryModels h w st :
  categoryModels (snd (train h w st)) = categoryModels st.
Proof.
  unfold train; monad_unfold.
  destruct (mlr_new L _ _); [|reflexivity].
  destruct (tf_tensor2d L (rows (List.map featureRow h))); [|reflexivity].
  destruct (tf_tensor2d L (rows _)); [|reflexivity].
  destruct (tf_fit L _ _ _ _) as [fitted [e|]]; reflexivity.
Qed.

Lemma train_failure_source h w st e :
  fst (train h w st) = Throw e ->
  mlr_new L (List.map featureRow h) (List.map (fun a => [a]) w) = Throw e \/
  tf_tensor2d L (rows (List.map featureRow h)) = Throw e \/
  tf_tensor2d L (rows (List.map (fun a => [a]) w)) = Throw e \/
  exists xs ys fitted,
    tf_tensor2d L (rows (List.map featureRow h)) = Ok xs /\
    tf_tensor2d L (rows (List.map (fun a => [a]) w)) = Ok ys /\
    tf_fit L (tf_compile L (tf_sequential L generalLayers) generalCompile)
           xs ys generalFit = (fitted, Some e).
Proof.
  unfold train; monad_unfold.
  destruct (mlr_new L _ _) as [lin|le]; [|cbn; intros [= <-]; eauto].
  destruct (tf_tensor2d L (rows (List.map featureRow h))) as [xs|le];
    [|cbn; intros [= <-]; eauto].
  destruct (tf_tensor2d L (rows _)) as [ys|le]; [|cbn; intros [= <-]; eauto 6].
  destruct (tf_fit L _ _ _ _) as [fitted [le|]] eqn:Hfit; cbn; intros [= <-].
  do 3 right. exists xs, ys, fitted. auto.
Qed.

Lemma train_regressor_throws h w st e :
  mlr_new L (List.map featureRow h) (List.map (fun a => [a]) w) = Throw e ->
  train h w st = (Throw e, st).
Proof. intros H. unfold train; monad_unfold. rewrite H. reflexivity. Qed.

Lemma train_partial h w st lin :
  mlr_new L (List.map featureRow h) (List.map (fun a => [a]) w) = Ok lin ->
  mlr (snd (train h w st)) = Some lin /\
  model (snd (train h w st)) =
    let net := tf_compile L (tf_sequential L generalLayers) generalCompile in
    match tf_tensor2d L (rows (List.map featureRow h)),
          tf_tensor2d L (rows (List.map (fun a => [a]) w)) with
    | Ok xs, Ok ys => Some (fst (tf_fit L net xs ys generalFit))
    | _, _ => Some net
    end.
Proof.
  intros H. unfold train; monad_unfold. rewrite H.
  destruct (tf_tensor2d L (rows (List.map featureRow h))); [|cbn; split; reflexivity].
  destruct (tf_tensor2d L (rows _)); [|cbn; split; reflexivity].
  destruct (tf_fit L _ _ _ _) as [fitted [le|]]; cbn; split; reflexivity.
Qed.

Lemma train_overwrites h w st lin :
  mlr_new L (List.map featureRow h) (List.map (fun a => [a]) w) = Ok lin ->
  mlr (snd (train h w st)) = Some lin /\ model (snd (train h w st)) <> None.
Proof.
  intros H. unfold train; monad_unfold. rewrite H.
  destruct (tf_tensor2d L (rows (List.map featureRow h))); [|cbn; split; congruence].
  destruct (tf_tensor2d L (rows _)); [|cbn; split; congruence].
  destruct (tf_fit L _ _ _ _) as [fitted [le|]]; cbn; split; congruence.
Qed.

Lemma train_succeeds h w st lin xs ys fitted :
  mlr_new L (List.map featureRow h) (List.map (fun a => [a]) w) = Ok lin ->
  tf_tensor2d L (rows (List.map featureRow h)) = Ok xs ->
  tf_tensor2d L (rows (List.map (fun a => [a]) w)) = Ok ys ->
  tf_fit L (tf_compile L (tf_sequential L generalLayers) generalCompile)
         xs ys generalFit = (fitted, None) ->
  train h w st =
  (Ok tt, {| model := Some fitted; mlr := Some lin;
             categoryModels := categoryModels st |}).
Proof.
  intros H1 H2 H3 H4. unfold train; monad_unfold.
  rewrite H1, H2, H3, H4. reflexivity.
Qed.

(** *** [trainCategoryModel] *)

Lemma trainCategoryModel_eq c data waste st :
  trainCategoryModel c data waste st =
  match fitCategory data waste with
  | Ok fitted => (Ok tt, set_category c fitted st)
  | Throw e => (Throw e, st)
  end.
Proof.
  unfold trainCategoryModel, fitCategory; monad_unfold.
  destruct (tf_tensor2d L (rows _)); [|reflexivity].
  destruct (tf_tensor2d L (List.map _ waste)); [|reflexivity].
  destruct (tf_fit L _ _ _ _) as [fitted [e|]]; reflexivity.
Qed.

(** *** Pairing samples with targets *)

Lemma findIndex_own_slot {A} (l : list (ObjRef A)) (i : nat) (d : ObjRef A) :
  NoDup (List.map identity l) ->
  nth_error l i = Some d ->
  findIndex (fun nd => sameObject nd d) l = Some i.
Proof.
  revert i. induction l as [|x l IH]; intros i Hnd Hi.
  - destruct i; discriminate.
  - cbn [List.map] in Hnd. apply NoDup_cons in Hnd as [Hx Hnd].
    destruct i as [|i]; cbn [nth_error findIndex] in *.
    + injection Hi as ->. unfold sameObject. rewrite Nat.eqb_refl. reflexivity.
    + assert (Hne : sameObject x d = false).
      { unfold sameObject. apply Nat.eqb_neq. intros Heq. apply Hx.
        rewrite Heq. apply list_elem_of_In, in_map, (nth_error_In _ _ Hi). }
      rewrite Hne, (IH i Hnd Hi). reflexivity.
Qed.

Lemma map_filter_paired {A B} (p : A -> bool) (g : A -> option B)
      (l : list A) (w : list B) :
  length l = length w ->
  (forall i d, nth_error l i = Some d -> g d = nth_error w i) ->
  List.map g (List.filter p l) =
  List.map (fun pair => Some (snd pair))
           (List.filter (fun pair => p (fst pair)) (combine l w)).
Proof.
  revert w. induction l as [|x l IH]; intros [|t w] Hlen Hg; try discriminate.
  - reflexivity.
  - cbn [combine List.filter fst].
    pose proof (Hg 0%nat x eq_refl) as Hx. cbn [nth_error] in Hx.
    assert (Htail : List.map g (List.filter p l) =
                    List.map (fun pair => Some (snd pair))
                             (List.filter (fun pair => p (fst pair)) (combine l w))).
    { apply IH; [cbn in Hlen; lia|]. intros i d Hi. exact (Hg (S i) d Hi). }
    destruct (p x); cbn [List.map snd]; rewrite ?Hx, Htail; reflexivity.
Qed.

Lemma categoryWaste_index_paired (c : option string)
      (newData : list (ObjRef (WastePredictionInput N))) (newWasteAmounts : list num) :
  NoDup (List.map identity newData) ->
  length newData = length newWasteAmounts ->
  categoryWaste c newData newWasteAmounts =
  List.map (fun pair => Some (snd pair))
           (List.filter (fun pair => bool_decide (category (fields (fst pair)) = c))
                        (combine newData newWasteAmounts)).
Proof.
  intros Hnd Hlen. unfold categoryWaste, categoryData.
  apply (map_filter_paired
           (fun d => bool_decide (category (fields d) = c))
           (fun sample => at_index newWasteAmounts
                            (findIndex (fun nd => sameObject nd sample) newData)));
    [exact Hlen|].
  intros i d Hi. rewrite (findIndex_own_slot newData i d Hnd Hi). reflexivity.
Qed.
(** *** [updateModel] *)

Lemma retrain_frame newData w c k st :
  c <> Some k ->
  categoryModels (snd (retrain newData w c st)) !! k = categoryModels st !! k.
Proof.
  intros Hne. unfold retrain. destruct (negb (truthy c)); [reflexivity|].
  destruct c as [name|]; [|reflexivity].
  rewrite trainCategoryModel_eq. destruct (fitCategory _ _); [|reflexivity].
  cbn. apply lookup_insert_ne. congruence.
Qed.

Lemma retrain_general newData w c st :
  model (snd (retrain newData w c st)) = model st /\
  mlr (snd (retrain newData w c st)) = mlr st.
Proof.
  unfold retrain. destruct (negb (truthy c)); [split; reflexivity|].
  destruct c as [name|]; [|split; reflexivity].
  rewrite trainCategoryModel_eq. destruct (fitCategory _ _); split; reflexivity.
Qed.

Lemma forEach_frame newData w cats k st :
  ~ In (Some k) cats ->
  categoryModels (snd (forEach cats (retrain newData w) st)) !! k =
  categoryModels st !! k.
Proof.
  revert st. induction cats as [|c cats IH]; intros st Hnot; [reflexivity|].
  cbn [forEach]. unfold bind.
  pose proof (retrain_frame newData w c k st) as Hc.
  destruct (retrain newData w c st) as [[[]|e] st1]; cbn [snd] in *.
  - rewrite IH, Hc; [reflexivity| |]; intros H; apply Hnot; cbn; auto.
  - apply Hc. intros ->. apply Hnot. cbn. auto.
Qed.

Lemma forEach_general newData w cats st :
  model (snd (forEach cats (retrain newData w) st)) = model st /\
  mlr (snd (forEach cats (retrain newData w) st)) = mlr st.
Proof.
  revert st. induction cats as [|c cats IH]; intros st; [split; reflexivity|].
  cbn [forEach]. unfold bind.
  pose proof (retrain_general newData w c st) as [Hm Hl].
  destruct (retrain newData w c st) as [[[]|e] st1]; cbn [snd] in *.
  - destruct (IH st1) as [-> ->]. split; assumption.
  - split; assumption.
Qed.

Lemma forEach_upsert newData w cats k st st' :
  NoDup cats -> In (Some k) cats -> truthy (Some k) = true ->
  forEach cats (retrain newData w) st = (Ok tt, st') ->
  exists fitted,
    fitCategory (List.map fields (categoryData (Some k) newData))
                (categoryWaste (Some k) newData w) = Ok fitted /\
    categoryModels st' !! k = Some fitted.
Proof.
  intros Hnd Hin Htruthy. revert st.
  induction cats as [|c cats IH]; intros st; [destruct Hin|].
  apply NoDup_cons in Hnd as [Hc Hnd]. rewrite list_elem_of_In in Hc.
  cbn [forEach]. unfold bind.
  destruct (retrain newData w c st) as [[[]|e] st1] eqn:Hbody; [|discriminate].
  intros Hrest. destruct Hin as [-> | Hin].
  - unfold retrain in Hbody. rewrite Htruthy in Hbody. cbn [negb] in Hbody.
    rewrite trainCategoryModel_eq in Hbody.
    destruct (fitCategory _ _) as [fitted|]; [|discriminate].
    exists fitted. split; [reflexivity|].
    injection Hbody as <-.
    replace st' with (snd (forEach cats (retrain newData w)
                                   (set_category k fitted st)))
      by (rewrite Hrest; reflexivity).
    rewrite forEach_frame by assumption. cbn. apply lookup_insert_eq.
  - eapply IH; eauto.
Qed.

Lemma category_in_batch newData k :
  In (Some k) (newSet (List.filter truthy
                         (List.map (fun d => category (fields d)) newData))) <->
  truthy (Some k) = true /\ exists d, In d newData /\ category (fields d) = Some k.
Proof.
  rewrite newSet_In, filter_In, in_map_iff. split.
  - intros [(d & Hd & Hin) Ht]. split; [assumption|]. eauto.
  - intros [Ht (d & Hin & Hd)]. split; [|assumption]. eauto.
Qed.

Lemma updateModel_frame newData w k st :
  (forall d, In d newData -> category (fields d) <> Some k) ->
  categoryModels (snd (updateModel newData w st)) !! k = categoryModels st !! k.
Proof.
  intros Habsent. unfold updateModel, bind.
  pose proof (train_categoryModels (List.map fields newData) w st) as Ht.
  destruct (train _ _ st) as [[[]|e] st1]; cbn [snd] in *.
  - rewrite forEach_frame, Ht; [reflexivity|].
    rewrite category_in_batch. intros [_ (d & Hin & Hd)]. exact (Habsent d Hin Hd).
  - rewrite Ht. reflexivity.
Qed.

Lemma updateModel_upsert newData w k st st' :
  updateModel newData w st = (Ok tt, st') ->
  k <> ""%string ->
  (exists d, In d newData /\ category (fields d) = Some k) ->
  exists fitted,
    fitCategory (List.map fields (categoryData (Some k) newData))
                (categoryWaste (Some k) newData w) = Ok fitted /\
    categoryModels st' !! k = Some fitted.
Proof.
  unfold updateModel, bind.
  destruct (train _ _ st) as [[[]|e] st1]; [|discriminate].
  intros Hloop Hk Hd.
  assert (Ht : truthy (Some k) = true).
  { cbn. apply negb_true_iff, String.eqb_neq. assumption. }
  eapply forEach_upsert; eauto using newSet_NoDup.
  apply category_in_batch. auto.
Qed.

Lemma train_ok_inv h w st st' :
  train h w st = (Ok tt, st') ->
  exists lin xs ys fitted,
    mlr_new L (List.map featureRow h) (List.map (fun a => [a]) w) = Ok lin /\
    tf_tensor2d L (rows (List.map featureRow h)) = Ok xs /\
    tf_tensor2d L (rows (List.map (fun a => [a]) w)) = Ok ys /\
    tf_fit L (tf_compile L (tf_sequential L generalLayers) generalCompile)
           xs ys generalFit = (fitted, None) /\
    st' = {| model := Some fitted; mlr := Some lin;
             categoryModels := categoryModels st |}.
Proof.
  unfold train; monad_unfold.
  destruct (mlr_new L _ _) as [lin|]; [|discriminate].
  destruct (tf_tensor2d L (rows (List.map featureRow h))) as [xs|]; [|discriminate].
  destruct (tf_tensor2d L (rows _)) as [ys|]; [|discriminate].
  destruct (tf_fit L _ _ _ _) as [fitted [le|]] eqn:Hfit; [discriminate|].
  cbn. intros [= <-]. exists lin, xs, ys, fitted. repeat split. exact Hfit.
Qed.

Lemma updateModel_general newData w st st' :
  updateModel newData w st = (Ok tt, st') ->
  exists lin xs ys fitted,
    mlr_new L (List.map featureRow (List.map fields newData))
            (List.map (fun a => [a]) w) = Ok lin /\
    tf_tensor2d L (rows (List.map featureRow (List.map fields newData))) = Ok xs /\
    tf_tensor2d L (rows (List.map (fun a => [a]) w)) = Ok ys /\
    tf_fit L (tf_compile L (tf_sequential L generalLayers) generalCompile)
           xs ys generalFit = (fitted, None) /\
    model st' = Some fitted /\ mlr st' = Some lin.
Proof.
  unfold updateModel, bind.
  destruct (train _ _ st) as [[[]|e] st1] eqn:Htrain; [|discriminate].
  intros Hloop.
  destruct (train_ok_inv _ _ _ _ Htrain)
    as (lin & xs & ys & fitted & H1 & H2 & H3 & H4 & ->).
  exists lin, xs, ys, fitted. repeat split; try assumption.
  - replace st' with (snd (forEach
        (newSet (List.filter truthy
                   (List.map (fun d => category (fields d)) newData)))
        (retrain newData w)
        {| model := Some fitted; mlr := Some lin;
           categoryModels := categoryModels st |})) by (rewrite Hloop; reflexivity).
    apply forEach_general.
  - replace st' with (snd (forEach
        (newSet (List.filter truthy
                   (List.map (fun d => category (fields d)) newData)))
        (retrain newData w)
        {| model := Some fitted; mlr := Some lin;
           categoryModels := categoryModels st |})) by (rewrite Hloop; reflexivity).
    apply forEach_general.
Qed.

End AnyLibrary.

(** *** The stand-in regressor *)

Lemma regress_refuses `{N : Number} (X y : list (list num)) :
  length X <> length y \/ X = [] \/ y = [] ->
  exists e, Stub.regress X y = Throw e.
Proof.
  intros H. unfold Stub.regress.
  destruct (Nat.eqb_spec (length X) (length y)) as [Heq|Hne];
    [|eexists; reflexivity].
  destruct X as [|x X]; [eexists; reflexivity|].
  destruct H as [H | [H | ->]]; [contradiction | discriminate | discriminate].
Qed.

(** *** The confidence score on doubles *)

Section FloatConfidence.
Import FloatProps Binary64 Rounding.

Lemma mean_NaN (P : list float) :
  (exists x, In x P /\ isNaN x) -> isNaN (@mean Float64 P).
Proof.
  intros H. unfold mean. cbn [ndiv nadd nofZ Float64].
  apply div_NaN_l, (fold_add_NaN_term (fun b => b)), H.
Qed.

Lemma confidenceOf_NaN (P : list float) :
  (exists x, In x P /\ isNaN x) ->
  @confidenceOf Float64 P = PrimFloat.nan.
Proof.
  intros H. pose proof (mean_NaN P H) as Hmean.
  assert (Hvar : isNaN (@variance Float64 P)).
  { unfold variance. cbn [ndiv nadd nsub nsq nofZ Float64].
    apply div_NaN_l,
      (fold_add_NaN_term
         (fun b => ((b - @mean Float64 P) * (b - @mean Float64 P))%float)).
    destruct H as (x & Hin & _). exists x. split; [exact Hin|].
    apply mul_NaN_l, sub_NaN_r, Hmean. }
  unfold confidenceOf. cbn [nmax nsub nmul nofZ Float64].
  unfold float_max.
  rewrite (isNaN_is_nan (float_of_Z 100 - @variance Float64 P * float_of_Z 10)%float).
  - rewrite orb_true_r. reflexivity.
  - apply sub_NaN_r, mul_NaN_l, Hvar.
Qed.

(** Sums of squares are NaN or not negative. *)
Lemma float_of_Z_nonneg z :
  0 <= z -> sign_or_nan false (Prim2SF (float_of_Z z)).
Proof.
  intros Hz. unfold float_of_Z.
  replace (z <? 0) with false by (symmetry; apply Z.ltb_ge; lia).
  rewrite of_uint63_spec.
  pose proof (Uint63.to_Z_bounded (Uint63.of_Z z)) as [Hlo _].
  destruct (Uint63Axioms.to_Z (Uint63.of_Z z)) as [|p|p];
    cbn [binary_normalize]; [reflexivity|apply binary_round_sign|lia].
Qed.

Lemma fold_squares_nonneg (mu : float) (P : list float) (acc : float) :
  sign_or_nan false (Prim2SF acc) ->
  sign_or_nan false
    (Prim2SF (fold_left (fun a b => (a + (b - mu) * (b - mu))%float) P acc)).
Proof.
  revert acc. induction P as [|x P IH]; intros acc Hacc; [exact Hacc|].
  cbn [fold_left]. apply IH. rewrite add_spec, mul_spec.
  apply SFadd_nonneg; [exact Hacc|apply SFmul_square].
Qed.

Lemma variance_nonneg (P : list float) :
  sign_or_nan false (Prim2SF (@variance Float64 P)).
Proof.
  unfold variance. cbn [ndiv nadd nsub nsq nofZ Float64].
  rewrite div_spec. apply SFdiv_nonneg.
  - apply fold_squares_nonneg, float_of_Z_nonneg. lia.
  - apply float_of_Z_nonneg. lia.
Qed.

(** The confidence is NaN or lies between 0 and 100. *)
Lemma confidenceOf_bounds (P : list float) :
  PrimFloat.is_nan (@confidenceOf Float64 P) = true \/
  (PrimFloat.leb 0 (@confidenceOf Float64 P) = true /\
   PrimFloat.leb (@confidenceOf Float64 P) 100 = true).
Proof.
  unfold confidenceOf. cbn [nmax nsub nmul nofZ Float64].
  set (w := (@variance Float64 P * float_of_Z 10)%float).
  assert (Hw : sign_or_nan false (Prim2SF w)).
  { unfold w. rewrite mul_spec. apply SFmul_nonneg.
    - apply variance_nonneg.
    - apply float_of_Z_nonneg. lia. }
  change (float_of_Z 0) with 0%float. change (float_of_Z 100) with 100%float.
  set (r := (100 - w)%float).
  assert (Hr : Prim2SF r = S754_nan \/ PrimFloat.leb r 100 = true).
  { unfold r. rewrite leb_spec, sub_spec.
    change (Prim2SF 100) with (S754_finite false 7036874417766400 (-46)).
    apply SFsub_le; [reflexivity|discriminate|exact Hw]. }
  unfold float_max. change (PrimFloat.is_nan 0) with false. cbn [orb].
  destruct (PrimFloat.is_nan r) eqn:Hnan; [left; reflexivity|].
  destruct Hr as [Hr|Hr];
    [rewrite (isNaN_is_nan r Hr) in Hnan; discriminate|].
  right. destruct (PrimFloat.ltb 0 r) eqn:Hlt; [split; [apply ltb_leb, Hlt|exact Hr]|].
  change (PrimFloat.get_sign 0) with false.
  destruct (PrimFloat.ltb r 0); split; reflexivity.
Qed.

(** *** Identical predictions, on doubles *)

Lemma spareBits_cases a :
  spareBits a = true ->
  a = 0%float \/ a = (-0)%float \/
  exists s m e, Prim2SF a = S754_finite s m e /\
                bounded prec emax m e = true /\
                -1072 <= e <= 969 /\ (4 | Zpos m).
Proof.
  unfold spareBits. pose proof (Prim2SF_valid a) as Hvalid.
  destruct (Prim2SF a) as [[]| | |s m e] eqn:Ha; try discriminate.
  - intros _. right. left. apply Prim2SF_inj. rewrite Ha. reflexivity.
  - intros _. left. apply Prim2SF_inj. rewrite Ha. reflexivity.
  - intros H. apply andb_prop in H as [H He2]. apply andb_prop in H as [Hm He1].
    do 2 right. exists s, m, e. split; [reflexivity|].
    split; [exact Hvalid|]. split; [lia|].
    apply Z.mod_divide; [lia|]. apply Z.eqb_eq, Hm.
Qed.

Lemma sub_self a s m e :
  Prim2SF a = S754_finite s m e -> (a - a)%float = 0%float.
Proof.
  intros Ha. apply Prim2SF_inj. rewrite sub_spec, Ha.
  unfold SF64sub, SFsub. cbv zeta.
  destruct (shl_align m e (Z.min e e)) as [m1 e1]. cbn [fst].
  rewrite Z.sub_diag. reflexivity.
Qed.

Lemma mean_pair a s m e :
  Prim2SF a = S754_finite s m e -> bounded prec emax m e = true ->
  -1072 <= e <= 969 ->
  @mean Float64 [a; a] = a.
Proof.
  intros Ha Hvalid Hroom. apply Prim2SF_inj.
  unfold mean. cbn [ndiv nadd nofZ Float64 fold_left length].
  change (float_of_Z 0) with 0%float.
  change (float_of_Z (Z.of_nat 2)) with 2%float.
  rewrite div_spec, !add_spec, Ha.
  change (Prim2SF 0) with (S754_zero false).
  change (Prim2SF 2) with (S754_finite false 4503599627370496 (-51)).
  change (SF64add (S754_zero false) (S754_finite s m e)) with (S754_finite s m e).
  rewrite (SFadd_self s m e Hvalid Hroom).
  apply (SFdiv_two s m e Hvalid Hroom).
Qed.

Lemma mean_triple a s m e :
  Prim2SF a = S754_finite s m e -> bounded prec emax m e = true ->
  -1072 <= e <= 969 -> (4 | Zpos m) ->
  @mean Float64 [a; a; a] = a.
Proof.
  intros Ha Hvalid Hroom Hspare. apply Prim2SF_inj.
  unfold mean. cbn [ndiv nadd nofZ Float64 fold_left length].
  change (float_of_Z 0) with 0%float.
  change (float_of_Z (Z.of_nat 3)) with 3%float.
  rewrite div_spec, !add_spec, Ha.
  change (Prim2SF 0) with (S754_zero false).
  change (Prim2SF 3) with (S754_finite false 6755399441055744 (-51)).
  change (SF64add (S754_zero false) (S754_finite s m e)) with (S754_finite s m e).
  rewrite (SFadd_self s m e Hvalid Hroom).
  destruct (SFadd_third s m e Hvalid Hroom Hspare) as (M & E & -> & HdM & HE & HM).
  apply (SFdiv_three s m e Hvalid Hroom M E HdM HE HM).
Qed.

(** Two or three predictions that are one and the same value with spare
    bits give a confidence of exactly 100. *)
Lemma confidenceOf_identical_doubles (a : float) (P : list float) :
  spareBits a = true -> P = [a; a] \/ P = [a; a; a] ->
  @confidenceOf Float64 P = 100%float.
Proof.
  intros Hspare HP.
  destruct (spareBits_cases a Hspare)
    as [-> | [-> | (s & m & e & Ha & Hvalid & Hroom & Hdiv)]].
  - destruct HP as [-> | ->]; vm_compute; reflexivity.
  - destruct HP as [-> | ->]; vm_compute; reflexivity.
  - pose proof (sub_self a s m e Ha) as Hsub.
    destruct HP as [-> | ->]; unfold confidenceOf, variance; cbv zeta.
    + rewrite (mean_pair a s m e Ha Hvalid Hroom).
      cbn [nmax ndiv nadd nsub nmul nsq nofZ Float64 fold_left length].
      rewrite Hsub. vm_compute. reflexivity.
    + rewrite (mean_triple a s m e Ha Hvalid Hroom Hdiv).
      cbn [nmax ndiv nadd nsub nmul nsq nofZ Float64 fold_left length].
      rewrite Hsub. vm_compute. reflexivity.
Qed.
End FloatConfidence.

(** *** The confidence score in exact arithmetic *)

Section ExactConfidence.
Local Open Scope R_scope.

Lemma fold_left_Rsum {A} (f : A -> R) (l : list A) (a : R) :
  fold_left (fun acc b => acc + f b) l a = a + Rsum (List.map f l).
Proof.
  revert a. induction l as [|x l IH]; intros a; cbn [fold_left List.map Rsum fold_right].
  - lra.
  - rewrite IH. fold (Rsum (List.map f l)). lra.
Qed.

Lemma mean_exact (P : list R) : @mean Real P = simpleMean P.
Proof.
  unfold mean, simpleMean. real_arith.
  rewrite (fold_left_Rsum (fun b => b)), List.map_id, <- INR_IZR_INZ. f_equal. lra.
Qed.

Lemma variance_exact (P : list R) : @variance Real P = populationVariance P.
Proof.
  unfold variance, populationVariance. rewrite mean_exact. real_arith.
  rewrite (fold_left_Rsum (fun b => (b - simpleMean P) * (b - simpleMean P))).
  rewrite <- INR_IZR_INZ. f_equal. unfold Rsqr. lra.
Qed.

Lemma confidenceOf_exact (P : list R) :
  @confidenceOf Real P = Rmax 0 (100 - populationVariance P * 10).
Proof. unfold confidenceOf. rewrite variance_exact. reflexivity. Qed.

Lemma Rsum_squares_nonneg (m : R) (P : list R) :
  0 <= Rsum (List.map (fun x => Rsqr (x - m)) P).
Proof.
  induction P as [|x P IH]; cbn [List.map Rsum fold_right]; [lra|].
  fold (Rsum (List.map (fun x => Rsqr (x - m)) P)).
  pose proof (Rle_0_sqr (x - m)). lra.
Qed.

Lemma length_pos_INR {A} (P : list A) : P <> [] -> 0 < INR (length P).
Proof.
  destruct P as [|x P]; [congruence|]. intros _.
  apply lt_0_INR. cbn [length]. lia.
Qed.

Lemma populationVariance_nonneg (P : list R) : P <> [] -> 0 <= populationVariance P.
Proof.
  intros HP. unfold populationVariance.
  apply Rmult_le_pos; [apply Rsum_squares_nonneg|].
  apply Rlt_le, Rinv_0_lt_compat, length_pos_INR, HP.
Qed.

Lemma confidenceOf_range (P : list R) :
  P <> [] -> 0 <= @confidenceOf Real P <= 100.
Proof.
  intros HP. rewrite confidenceOf_exact.
  pose proof (populationVariance_nonneg P HP).
  split; [apply Rmax_l|]. apply Rmax_lub; lra.
Qed.

Lemma Rsum_constant (a : R) (P : list R) :
  (forall x, In x P -> x = a) -> Rsum P = INR (length P) * a.
Proof.
  induction P as [|x P IH]; intros Hall.
  - cbn. lra.
  - change (Rsum (x :: P)) with (x + Rsum P).
    change (length (x :: P)) with (S (length P)). rewrite S_INR.
    rewrite IH by (intros y Hy; apply Hall; right; exact Hy).
    rewrite (Hall x) by (left; reflexivity). lra.
Qed.

Lemma populationVariance_identical (a : R) (P : list R) :
  P <> [] -> (forall x, In x P -> x = a) -> populationVariance P = 0.
Proof.
  intros HP Hall. pose proof (length_pos_INR P HP) as Hlen.
  assert (Hmean : simpleMean P = a).
  { unfold simpleMean. rewrite (Rsum_constant a P Hall). field. lra. }
  unfold populationVariance. rewrite Hmean.
  assert (Hzero : Rsum (List.map (fun x => Rsqr (x - a)) P) = 0).
  { clear HP Hlen Hmean. induction P as [|x P IH]; [reflexivity|].
    cbn [List.map Rsum fold_right].
    fold (Rsum (List.map (fun x => Rsqr (x - a)) P)).
    rewrite IH by (intros y Hy; apply Hall; right; exact Hy).
    rewrite (Hall x) by (left; reflexivity).
    unfold Rsqr. lra. }
  rewrite Hzero. field. lra.
Qed.

Lemma confidenceOf_identical (a : R) (P : list R) :
  P <> [] -> (forall x, In x P -> x = a) -> @confidenceOf Real P = 100.
Proof.
  intros HP Hall. rewrite confidenceOf_exact.
  rewrite (populationVariance_identical a P HP Hall).
  rewrite Rmax_right; lra.
Qed.
End ExactConfidence.

End ForecasterProps.

(** ** The specification of the aggregation layer *)

Module InventorySpec.
Import App AppProps.

Lemma ceil_div_bounds a b :
  0 < b -> (ceil_div a b - 1) * b < a <= ceil_div a b * b.
Proof.
  intros Hb. unfold ceil_div.
  pose proof (Z.div_mod (- a) b ltac:(lia)) as Hdm.
  pose proof (Z.mod_pos_bound (- a) b Hb) as Hm.
  nia.
Qed.

(** C3, amended.  Days until expiry is the whole-day ceiling of the time
    left; every number of days lies in exactly one of the four buckets
    expired (<= 0), critical (1-3), warning (4-7), safe (> 7); in any
    arithmetic each bucket total is the running sum, in inventory order, of
    the values of exactly the items of that bucket; and in exact arithmetic
    the four bucket totals sum to the flat inventory valuation. *)
Theorem expiry_buckets_partition :
  (forall days, exists! b, inBucket b days = true) /\
  (forall (N : Number) now (item : FoodItem N),
      (daysUntilExpiry now item - 1) * msPerDay < expiryDate item - now
      <= daysUntilExpiry now item * msPerDay) /\
  (forall (N : Number) now (inventory : list (FoodItem N)) b,
      bucketTotal b (expiryRanges now inventory) =
      sum_by itemValue (itemsIn b now inventory)) /\
  (forall now (inventory : list (FoodItem Real)),
      @sum_by Real _ snd (prepareExpiryAnalysisData now inventory) =
      @calculateTotalInventoryValue Real inventory).
Proof.
  split; [|split; [|split]].
  - intros days. destruct (inBucket_exhaustive days) as [b Hb].
    exists b. split; [exact Hb|]. intros b' Hb'.
    exact (inBucket_exclusive days b b' Hb Hb').
  - intros N now item. apply ceil_div_bounds, msPerDay_pos.
  - intros N now inventory b. unfold expiryRanges.
    rewrite expiry_fold_bucket. destruct b; reflexivity.
  - intros now inventory.
    pose proof (expiry_fold_sum now inventory
                  (@Build_ExpiryRanges Real 0%R 0%R 0%R 0%R)) as H.
    unfold sumOfBuckets in H. cbn [expired critical warning safe] in H.
    unfold prepareExpiryAnalysisData, sum_by, expiryRanges.
    cbn [fold_left snd]. real_arith.
    lra.
Qed.

(** C3, as stated, fails on doubles: for the three lots of [Leftovers] the
    bucket totals are 0.5 (expired), 0.1 (critical), 0 and 0, which sum to
    0.6 in whichever order they are added, while the flat valuation
    (0.2 + 0.1) + 0.3 is 0.6000000000000001. *)
Lemma expiry_buckets_rounding_counterexample :
  let r := expiryRanges Leftovers.now Leftovers.inventory in
  expired r = 0.5%float /\ critical r = 0.1%float /\
  warning r = 0%float /\ safe r = 0%float /\
  sum_by snd (prepareExpiryAnalysisData Leftovers.now Leftovers.inventory)
    = 0.6%float /\
  (safe r + warning r + critical r + expired r)%float = 0.6%float /\
  calculateTotalInventoryValue Leftovers.inventory = 0.6000000000000001%float /\
  PrimFloat.eqb
    (sum_by snd (prepareExpiryAnalysisData Leftovers.now Leftovers.inventory))
    (calculateTotalInventoryValue Leftovers.inventory) = false.
Proof. vm_compute. repeat split; reflexivity. Qed.

(** C4, amended.  In any arithmetic the category roll-up has one row per
    distinct category, in order of first occurrence in the inventory, and
    the value and the quantity of a row are the sums, added from left to
    right in inventory order, over the items of its category; in exact
    arithmetic the value fields of the rows sum to the flat inventory
    valuation. *)
Theorem category_rollup_total_exact :
  (forall (N : Number) (inventory : list (FoodItem N)),
      List.map ct_category (prepareInventoryTrendData inventory)
        = newSet (List.map category inventory) /\
      forall row, In row (prepareInventoryTrendData inventory) ->
        ct_value row
          = runningSum itemValue (categoryItems (ct_category row) inventory) /\
        ct_quantity row
          = runningSum quantity (categoryItems (ct_category row) inventory)) /\
  (forall inventory : list (FoodItem Real),
      @sum_by Real _ ct_value (prepareInventoryTrendData inventory) =
      @calculateTotalInventoryValue Real inventory).
Proof.
  split.
  - intros N inventory. exact (rollup_rowsOk inventory).
  - intros inventory. unfold prepareInventoryTrendData.
    rewrite trend_fold_value, sum_by_nil. real_arith. lra.
Qed.

(** C4, as stated, fails on doubles: for the three lots of [Leftovers] the
    roll-up has Produce 0.2 + 0.3 = 0.5 and Dairy 0.1, which sum to 0.6,
    while the flat valuation is 0.6000000000000001. *)
Lemma category_rollup_rounding_counterexample :
  List.map (fun row => (ct_category row, ct_value row))
           (prepareInventoryTrendData Leftovers.inventory)
    = [("Produce"%string, 0.5%float); ("Dairy"%string, 0.1%float)] /\
  sum_by ct_value (prepareInventoryTrendData Leftovers.inventory) = 0.6%float /\
  calculateTotalInventoryValue Leftovers.inventory = 0.6000000000000001%float /\
  PrimFloat.eqb
    (sum_by ct_value (prepareInventoryTrendData Leftovers.inventory))
    (calculateTotalInventoryValue Leftovers.inventory) = false.
Proof. vm_compute. repeat split; reflexivity. Qed.

(** C5, amended.  The at-risk card counts the items that expire no later
    than [addDays(now, 3)], which is three days of 24 hours after [now]
    shifted by the change of the zone's offset over these days, if any.
    When the offset does not change, an item counts as at risk exactly when
    its days until expiry are at most 3, that is when it falls in the
    expired or the critical bucket, and in exact arithmetic the at-risk
    value equals the sum of the expired and critical bucket totals. *)
Theorem at_risk_value_exact :
  (forall tz now,
      addDays tz now 3 =
      now + 3 * msPerDay
      + (tz now true - tz (LocalTime tz now + 3 * msPerDay) false)) /\
  (forall (N : Number) tz now (item : FoodItem N),
      sameOffset tz now 3 ->
      (expiryDate item <=? addDays tz now 3) = (daysUntilExpiry now item <=? 3)) /\
  (forall (N : Number) tz now (item : FoodItem N),
      sameOffset tz now 3 ->
      (expiryDate item <=? addDays tz now 3) =
      (inBucket Expired (daysUntilExpiry now item)
       || inBucket Critical (daysUntilExpiry now item))) /\
  (forall tz now (inventory : list (FoodItem Real)),
      sameOffset tz now 3 ->
      @atRiskValue Real tz now inventory =
      (expired (expiryRanges now inventory)
       + critical (expiryRanges now inventory))%R).
Proof.
  split; [|split; [|split]].
  - intros tz now. apply addDays_window. discriminate.
  - intros N tz now item Hsame. rewrite (addDays_sameOffset tz now 3 Hsame).
    unfold daysUntilExpiry.
    rewrite ceil_div_le by apply msPerDay_pos.
    destruct (Z.leb_spec (expiryDate item) (now + 3 * msPerDay));
      destruct (Z.leb_spec (expiryDate item - now) (3 * msPerDay));
      try reflexivity; lia.
  - intros N tz now item. apply atRisk_filter.
  - intros tz now inventory Hsame. rewrite (atRisk_split tz now inventory Hsame).
    pose proof (expiry_fold_bucket (N:=Real) now Expired inventory
                  (@Build_ExpiryRanges Real 0%R 0%R 0%R 0%R)) as He.
    pose proof (expiry_fold_bucket (N:=Real) now Critical inventory
                  (@Build_ExpiryRanges Real 0%R 0%R 0%R 0%R)) as Hc.
    cbn [bucketTotal expired critical] in He, Hc.
    unfold expiryRanges. real_arith. rewrite He, Hc. reflexivity.
Qed.

(** In UTC the offset never changes: the at-risk value of the three lots of
    [ExactLeftovers] is the sum of their expired and critical totals. *)
Lemma at_risk_value_exact_witness :
  @atRiskValue Real Zones.utc ExactLeftovers.now ExactLeftovers.inventory =
  (expired (expiryRanges ExactLeftovers.now ExactLeftovers.inventory)
   + critical (expiryRanges ExactLeftovers.now ExactLeftovers.inventory))%R.
Proof.
  apply (proj2 (proj2 (proj2 at_risk_value_exact))
           Zones.utc ExactLeftovers.now ExactLeftovers.inventory).
  reflexivity.
Defined.

(** C5, as stated, fails in two ways.  Across a change of clock: in Central
    Europe, on 2024-03-29 at 00:30 UTC, a lot that expires on 2024-04-01 has
    3 days until expiry and is counted in the critical bucket, but
    [addDays(now, 3)] is 2024-03-31 23:30 UTC, an hour short of three days
    on, so the at-risk value is 0.  And on doubles, by rounding: all three
    lots of [Leftovers] are at risk, so the at-risk value is
    (0.2 + 0.1) + 0.3 = 0.6000000000000001, while expired + critical is
    0.5 + 0.1 = 0.6. *)
Lemma at_risk_counterexample :
  (daysUntilExpiry ClockChange.now ClockChange.salad = 3 /\
   prepareExpiryAnalysisData ClockChange.now [ClockChange.salad]
     = [("expired"%string, 0%float); ("critical"%string, 7%float);
        ("warning"%string, 0%float); ("safe"%string, 0%float)] /\
   addDays Zones.centralEurope ClockChange.now 3
     = ClockChange.now + 3 * msPerDay - 3600000 /\
   atRiskValue Zones.centralEurope ClockChange.now [ClockChange.salad]
     = 0%float) /\
  (let r := expiryRanges Leftovers.now Leftovers.inventory in
   atRiskValue Zones.utc Leftovers.now Leftovers.inventory
     = 0.6000000000000001%float /\
   (expired r + critical r)%float = 0.6%float /\
   PrimFloat.eqb (atRiskValue Zones.utc Leftovers.now Leftovers.inventory)
                 (expired r + critical r)%float = false).
Proof. vm_compute. repeat split; reflexivity. Qed.

(** X1.  The scenarios of the specification, on doubles: an inventory of
    10 kg at 50 per kg is worth 500, and with the item expiring two days
    from now the 500 are counted in the critical bucket only. *)
Theorem scenario_values :
  calculateTotalInventoryValue [Scenario.apples] = 500%float /\
  daysUntilExpiry Scenario.now Scenario.apples = 2 /\
  prepareExpiryAnalysisData Scenario.now [Scenario.apples]
    = [("expired"%string, 0%float); ("critical"%string, 500%float);
       ("warning"%string, 0%float); ("safe"%string, 0%float)].
Proof. vm_compute. repeat split; reflexivity. Qed.

(** X2.  An item whose expiry date is now or earlier is counted in the
    expired bucket, and in no other. *)
Theorem expired_when_due (N : Number) (now : Z) (item : FoodItem N) :
  expiryDate item <= now ->
  daysUntilExpiry now item <= 0 /\
  expiryRanges now [item]
    = {| expired := (nofZ 0 + quantity item * costPerKg item)%js;
         critical := nofZ 0; warning := nofZ 0; safe := nofZ 0 |}.
Proof.
  intros Hdue.
  assert (Hdays : daysUntilExpiry now item <= 0).
  { unfold daysUntilExpiry. apply Z.leb_le.
    rewrite ceil_div_le by apply msPerDay_pos. apply Z.leb_le. lia. }
  split; [exact Hdays|].
  unfold expiryRanges. cbn [fold_left]. unfold expiryStep.
  apply Z.leb_le in Hdays. rewrite Hdays. reflexivity.
Qed.

Lemma expired_when_due_witness :
  expiryRanges (Scenario.now + 2 * msPerDay) [Scenario.apples]
    = {| expired := 500%float; critical := 0%float;
         warning := 0%float; safe := 0%float |}.
Proof.
  rewrite (proj2 (expired_when_due Float64 (Scenario.now + 2 * msPerDay)
                    Scenario.apples ltac:(cbn; lia))).
  vm_compute. reflexivity.
Defined.

End InventorySpec.

(** ** The specification of the forecaster *)

Module ForecasterSpec.
Import WastePredictionModel ForecasterProps.



(** The stand-in refuses every malformed batch, whatever the forecaster
    holds. *)
Lemma stand_in_rejects_every_malformed_batch
      (samples : list (WastePredictionInput Float64)) (targets : list float)
      (st : State Trial.lib) :
  length samples <> length targets \/ samples = [] \/ targets = [] ->
  exists e, train samples targets st = (Throw e, st).
Proof.
  intros Hmalformed.
  destruct (regress_refuses (List.map featureRow samples)
                            (List.map (fun amount => [amount]) targets))
    as [e He].
  - rewrite !length_map.
    destruct Hmalformed as [H | [-> | ->]];
      [left; exact H | right; left | right; right]; reflexivity.
  - exists e. apply (train_regressor_throws (L := Trial.lib)), He.
Qed.




(** C6, amended.  On a forecaster whose network or linear regressor is
    absent, [predict] throws [new Error('Model not trained')] for every
    observation, a plain [Error] known by its message, and leaves the
    forecaster as it is.  It is the only error the class raises itself:
    what [train] and [trainCategoryModel] throw is the error object that
    one of their library calls threw. *)
Theorem predict_untrained_not_trained_error
        (N : Number) (L : Library N) (input : WastePredictionInput N) (st : State L) :
  model st = None \/ mlr st = None ->
  predict input st
    = (Throw {| error_name := "Error"; error_message := "Model not trained" |},
       st) /\
  (forall h w (st0 : State L) e,
      fst (train h w st0) = Throw e ->
      mlr_new L (List.map featureRow h) (List.map (fun a => [a]) w) = Throw e \/
      tf_tensor2d L (rows (List.map featureRow h)) = Throw e \/
      tf_tensor2d L (rows (List.map (fun a => [a]) w)) = Throw e \/
      exists xs ys fitted,
        tf_fit L (tf_compile L (tf_sequential L generalLayers) generalCompile)
               xs ys generalFit = (fitted, Some e)) /\
  (forall c data waste (st0 : State L) e,
      fst (trainCategoryModel c data waste st0) = Throw e ->
      fitCategory (L := L) data waste = Throw e).
Proof.
  intros H. split; [apply predict_untrained_throws, H|]. split.
  - intros h w st0 e He.
    destruct (train_failure_source h w st0 e He)
      as [Hs | [Hs | [Hs | (xs & ys & fitted & _ & _ & Hs)]]]; eauto 7.
  - intros c data waste st0 e. rewrite trainCategoryModel_eq.
    destruct (fitCategory (L := L) data waste) as [fitted|e']; cbn;
      [discriminate | intros [= ->]; reflexivity].
Qed.

(** A fresh forecaster has neither component. *)
Lemma predict_untrained_not_trained_error_witness :
  predict (L := Trial.lib) (Trial.observation 1 None) initial
    = (Throw {| error_name := "Error"; error_message := "Model not trained" |},
       initial).
Proof.
  apply (predict_untrained_not_trained_error Float64 Trial.lib
           (Trial.observation 1 None) initial).
  left. reflexivity.
Defined.

(** C6, as stated, fails: the class has no error kind of its own for the
    untrained forecaster.  What [predict] throws is a plain [Error], and so
    is what TensorFlow.js throws on a malformed batch: on a fresh forecaster
    the error of [predict] and the error [trainCategoryModel] throws on an
    empty batch have the same name, and differ in their messages only. *)
Lemma not_trained_error_kind_not_distinct :
  exists e1 e2,
    predict (L := Trial.lib) (Trial.observation 1 None) initial
      = (Throw e1, initial) /\
    trainCategoryModel (L := Trial.lib) "Produce" [] [] initial
      = (Throw e2, initial) /\
    error_name e1 = "Error"%string /\
    error_name e1 <> "NotTrainedError"%string /\
    error_name e2 = error_name e1 /\
    error_message e1 <> error_message e2.
Proof.
  do 2 eexists. split; [reflexivity|]. split; [reflexivity|].
  cbn. repeat split; discriminate.
Qed.

(** C7, at the failing input.  A batch that holds one sample object twice,
    with targets 150 and 120: the general components are fitted on both
    targets, but the "Produce" component is fitted on targets 150 and 150,
    because the slot of each category sample is searched again by object
    identity and the search stops at the first slot that holds the object.
    Two distinct objects with the same fields are paired with their own
    targets. *)
Theorem updateModel_aliased_sample_pairing :
  let batch := [Trial.produce; Trial.produce] in
  let targets := [150%float; 120%float] in
  let out := updateModel (L := Trial.lib) batch targets initial in
  categoryWaste (Some "Produce"%string) batch targets
    = [Some 150%float; Some 150%float] /\
  fst out = Ok tt /\
  option_map (fun net => option_map snd (Stub.fittedOn net)) (model (snd out))
    = Some (Some [[Some 150%float]; [Some 120%float]]) /\
  option_map (fun net => option_map snd (Stub.fittedOn net))
             (categoryModels (snd out) !! "Produce"%string)
    = Some (Some [[Some 150%float]; [Some 150%float]]) /\
  fields Trial.produceTwin = fields Trial.produce /\
  categoryWaste (Some "Produce"%string) [Trial.produce; Trial.produceTwin] targets
    = [Some 150%float; Some 120%float].
Proof. vm_compute. repeat split; reflexivity. Qed.

(** C8, amended.  On a trained forecaster [predict] always returns a
    result and leaves the forecaster as it is; [categoryPrediction] is
    present if and only if the observation's category is a non-empty string
    for which the per-category map holds a component, and it is then that
    component's prediction. *)
Theorem category_prediction_iff_truthy
        (N : Number) (L : Library N) (input : WastePredictionInput N)
        (st : State L) (net : Sequential L) (lin : MLR L) :
  model st = Some net -> mlr st = Some lin ->
  exists r,
    predict input st = (Ok r, st) /\
    (is_Some (categoryPrediction r) <->
     exists c, category input = Some c /\ c <> ""%string /\
               is_Some (categoryModels st !! c)) /\
    (forall c component,
        category input = Some c -> c <> ""%string ->
        categoryModels st !! c = Some component ->
        categoryPrediction r = Some (tf_predict L component (featureRow input))).
Proof.
  intros Hm Hl.
  destruct (predict_trained input st net lin Hm Hl) as (r & Hp & _ & _ & Hc & _).
  exists r. split; [exact Hp|]. rewrite Hc. clear Hc Hp.
  destruct (category input) as [c|]; cbn [truthy].
  - destruct (String.eqb_spec c "") as [->|Hne]; cbn [negb].
    + split.
      * split; [intros [? [=]]|]. intros (c & [= <-] & Hne & _). congruence.
      * intros c component [= <-] Hne. congruence.
    + split.
      * split.
        -- intros [v Hv]. exists c. repeat split; [assumption|].
           destruct (categoryModels st !! c); [eauto|discriminate].
        -- intros (c' & [= <-] & _ & [component ->]). cbn. eauto.
      * intros c' component [= <-] _ ->. reflexivity.
  - split.
    + split; [intros [? [=]]|]. intros (c & [=] & _).
    + intros c component [=].
Qed.

(** After [updateModel] on two Produce samples, a Produce observation gets
    the category prediction of the stored component. *)
Lemma category_prediction_iff_truthy_witness :
  exists r,
    predict (L := Trial.lib) (Trial.observation 1 (Some "Produce"%string))
            Trial.trainedWithProduce
      = (Ok r, Trial.trainedWithProduce) /\
    categoryPrediction r = Some 150%float.
Proof.
  edestruct (category_prediction_iff_truthy Float64 Trial.lib
               (Trial.observation 1 (Some "Produce"%string))
               Trial.trainedWithProduce)
    as (r & Hp & _ & Hvalue); [reflexivity | reflexivity |].
  exists r. split; [exact Hp|].
  destruct (categoryModels Trial.trainedWithProduce !! "Produce"%string)
    as [component|] eqn:Hlookup; [|vm_compute in Hlookup; discriminate].
  rewrite (Hvalue _ component eq_refl ltac:(discriminate) Hlookup).
  vm_compute in Hlookup. injection Hlookup as <-. reflexivity.
Defined.

(** C8, as stated, fails: after [trainCategoryModel('', ...)] the map holds
    a component for the empty string, and an observation whose category is
    the empty string gets no category prediction, because the empty string
    is falsy. *)
Lemma category_prediction_empty_string :
  let input := Trial.observation 1 (Some ""%string) in
  category input = Some ""%string /\
  is_Some (categoryModels Trial.trainedWithEmptyKey !! ""%string) /\
  exists r,
    predict (L := Trial.lib) input Trial.trainedWithEmptyKey
      = (Ok r, Trial.trainedWithEmptyKey) /\
    categoryPrediction r = None.
Proof.
  split; [reflexivity|]. split.
  - vm_compute. eauto.
  - eexists. split; reflexivity.
Qed.

(** C9, amended.  For every batch and every category key: if no sample of
    the batch carries that category, the component stored under the key is
    the same after [updateModel] as before, whether the call succeeds or
    throws; and when the call succeeds, every non-empty category carried by
    a sample of the batch is mapped to the network freshly fitted on that
    category's samples, whatever was stored under the key before. *)
Theorem updateModel_category_frame_upsert
        (N : Number) (L : Library N)
        (newData : list (ObjRef (WastePredictionInput N)))
        (newWasteAmounts : list num) (st : State L) (k : string) :
  ((forall d, In d newData -> category (fields d) <> Some k) ->
   categoryModels (snd (updateModel newData newWasteAmounts st)) !! k
   = categoryModels st !! k) /\
  (forall st',
      updateModel newData newWasteAmounts st = (Ok tt, st') ->
      k <> ""%string ->
      (exists d, In d newData /\ category (fields d) = Some k) ->
      exists fitted,
        fitCategory (List.map fields (categoryData (Some k) newData))
                    (categoryWaste (Some k) newData newWasteAmounts) = Ok fitted /\
        categoryModels st' !! k = Some fitted).
Proof.
  split.
  - apply updateModel_frame.
  - intros st'. apply updateModel_upsert.
Qed.

(** After [updateModel] on two Produce samples, the key Produce holds the
    network fitted on their two targets, and the key Dairy, absent from the
    batch, is as before. *)
Lemma updateModel_category_frame_upsert_witness :
  (exists fitted,
      categoryModels Trial.trainedWithProduce !! "Produce"%string = Some fitted /\
      option_map snd (Stub.fittedOn fitted)
        = Some [[Some 150%float]; [Some 120%float]]) /\
  categoryModels Trial.trainedWithProduce !! "Dairy"%string = None.
Proof.
  pose proof (updateModel_category_frame_upsert Float64 Trial.lib
                [Trial.produce; Trial.produce'] [150%float; 120%float] initial)
    as H.
  split.
  - destruct (proj2 (H "Produce"%string) Trial.trainedWithProduce eq_refl
                    ltac:(discriminate)
                    (ex_intro _ Trial.produce (conj (or_introl eq_refl) eq_refl)))
      as (fitted & Hfit & Hlookup).
    exists fitted. split; [exact Hlookup|].
    vm_compute in Hfit. injection Hfit as <-. reflexivity.
  - unfold Trial.trainedWithProduce.
    rewrite (proj1 (H "Dairy"%string)); [reflexivity|].
    intros d [<-|[<-|[]]]; discriminate.
Defined.

(** C9, as stated, fails: the forecaster holds a component under the empty
    string, fitted on targets 90 and 80; a batch whose two samples have the
    empty string as their category, with targets 150 and 120, is processed
    without error, and the component under that key is still the old one. *)
Lemma updateModel_empty_category_not_upserted :
  let st := Trial.trainedWithEmptyKey in
  let out :=
    updateModel (L := Trial.lib) [Trial.unlabelled; Trial.unlabelled']
                [150%float; 120%float] st in
  category (fields Trial.unlabelled) = Some ""%string /\
  category (fields Trial.unlabelled') = Some ""%string /\
  fst out = Ok tt /\
  categoryModels (snd out) !! ""%string = categoryModels st !! ""%string /\
  option_map (fun net => option_map snd (Stub.fittedOn net))
             (categoryModels (snd out) !! ""%string)
    = Some (Some [[Some 90%float]; [Some 80%float]]).
Proof. vm_compute. repeat split; reflexivity. Qed.

(** C10.  [predict] leaves the forecaster as it is, for every observation
    and every state, trained or not; so a second call with the same
    observation returns the same outcome. *)
Theorem predict_preserves_state
        (N : Number) (L : Library N) (input : WastePredictionInput N) (st : State L) :
  snd (predict input st) = st /\
  model (snd (predict input st)) = model st /\
  mlr (snd (predict input st)) = mlr st /\
  categoryModels (snd (predict input st)) = categoryModels st /\
  predict input (snd (predict input st)) = predict input st.
Proof.
  rewrite predict_state. repeat split; reflexivity.
Qed.

(** X3.  When no sample object occurs twice in the batch and the batch
    holds as many targets as samples, [updateModel] pairs every sample of a
    category with the target at the sample's own index in the batch. *)
Theorem updateModel_pairs_by_index_without_aliasing
        (N : Number) (c : option string)
        (newData : list (ObjRef (WastePredictionInput N)))
        (newWasteAmounts : list num) :
  NoDup (List.map identity newData) ->
  length newData = length newWasteAmounts ->
  categoryWaste c newData newWasteAmounts =
  List.map (fun pair => Some (snd pair))
           (List.filter (fun pair => bool_decide (category (fields (fst pair)) = c))
                        (combine newData newWasteAmounts)).
Proof. apply categoryWaste_index_paired. Qed.

Lemma updateModel_pairs_by_index_without_aliasing_witness :
  categoryWaste (Some "Produce"%string)
                [Trial.produce; Trial.unlabelled; Trial.produce']
                [150%float; 90%float; 120%float]
  = [Some 150%float; Some 120%float].
Proof.
  rewrite (updateModel_pairs_by_index_without_aliasing Float64
             (Some "Produce"%string)
             [Trial.produce; Trial.unlabelled; Trial.produce']
             [150%float; 90%float; 120%float]).
  - reflexivity.
  - apply (bool_decide_unpack _). vm_compute. exact I.
  - reflexivity.
Defined.

(** X4.  When [updateModel] succeeds, the general components are the
    regressor built from, and the fresh network fitted on, exactly the
    feature rows and targets of the supplied batch, whatever the forecaster
    held before. *)
Theorem updateModel_retrains_general_components
        (N : Number) (L : Library N)
        (newData : list (ObjRef (WastePredictionInput N)))
        (newWasteAmounts : list num) (st st' : State L) :
  updateModel newData newWasteAmounts st = (Ok tt, st') ->
  exists lin xs ys fitted,
    mlr_new L (List.map featureRow (List.map fields newData))
            (List.map (fun a => [a]) newWasteAmounts) = Ok lin /\
    tf_tensor2d L (rows (List.map featureRow (List.map fields newData))) = Ok xs /\
    tf_tensor2d L (rows (List.map (fun a => [a]) newWasteAmounts)) = Ok ys /\
    tf_fit L (tf_compile L (tf_sequential L generalLayers) generalCompile)
           xs ys generalFit = (fitted, None) /\
    model st' = Some fitted /\ mlr st' = Some lin.
Proof. apply updateModel_general. Qed.

Lemma updateModel_retrains_general_components_witness :
  exists fitted,
    model Trial.trainedWithProduce = Some fitted /\
    Stub.fittedOn fitted
      = Some ([[Some 1; Some 25; Some 60; Some 205; Some 140];
               [Some 2; Some 25; Some 60; Some 205; Some 140]]%float,
              [[Some 150]; [Some 120]]%float).
Proof.
  destruct (updateModel_retrains_general_components Float64 Trial.lib
              [Trial.produce; Trial.produce'] [150%float; 120%float]
              initial Trial.trainedWithProduce eq_refl)
    as (lin & xs & ys & fitted & _ & Hxs & Hys & Hfit & Hmodel & _).
  exists fitted. split; [exact Hmodel|].
  vm_compute in Hxs, Hys. injection Hxs as <-. injection Hys as <-.
  vm_compute in Hfit. injection Hfit as <-. reflexivity.
Defined.

(** X5.  [trainCategoryModel] never touches the general components or the
    components of other categories; when it succeeds the category is
    mapped to the freshly fitted network, replacing what was stored; when
    it throws the forecaster is unchanged. *)
Theorem trainCategoryModel_upserts
        (N : Number) (L : Library N) (c : string)
        (data : list (WastePredictionInput N)) (waste : list (option num))
        (st : State L) :
  let out := trainCategoryModel c data waste st in
  model (snd out) = model st /\ mlr (snd out) = mlr st /\
  (forall k, k <> c -> categoryModels (snd out) !! k = categoryModels st !! k) /\
  (fst out = Ok tt ->
   exists fitted, fitCategory data waste = Ok fitted /\
                  categoryModels (snd out) = <[c := fitted]> (categoryModels st)) /\
  (forall e, fst out = Throw e -> snd out = st).
Proof.
  cbv zeta. rewrite trainCategoryModel_eq.
  destruct (fitCategory data waste) as [fitted|le]; cbn [fst snd].
  - repeat split; try reflexivity.
    + intros k Hk. cbn. apply lookup_insert_ne. congruence.
    + intros _. exists fitted. split; reflexivity.
    + intros e [=].
  - repeat split; try reflexivity. intros [=].
Qed.

End ForecasterSpec.

(** ** More on the dashboard *)

Module DashboardProps.
Import App AppProps.

Lemma ceil_div_mono a a' b : 0 < b -> a <= a' -> ceil_div a b <= ceil_div a' b.
Proof.
  intros Hb Ha. unfold ceil_div.
  assert ((- a') / b <= (- a) / b) by (apply Z.div_le_mono; lia). lia.
Qed.

Lemma inBucket_spec b days :
  inBucket b days = true <->
  match b with
  | Expired => days <= 0
  | Critical => 1 <= days <= 3
  | Warning => 4 <= days <= 7
  | Safe => 7 < days
  end.
Proof. destruct b; cbn [inBucket]; lia. Qed.

Section AnyArithmetic.
Context `{N : Number}.

Lemma atRisk_due tz now (item : FoodItem N) :
  sameOffset tz now 3 ->
  (expiryDate item <=? addDays tz now 3) = true <-> daysUntilExpiry now item <= 3.
Proof.
  intros Hsame. rewrite (atRisk_filter tz now item Hsame), orb_true_iff, !inBucket_spec.
  lia.
Qed.

Lemma daysUntilExpiry_antitone now now' (item : FoodItem N) :
  now <= now' -> daysUntilExpiry now' item <= daysUntilExpiry now item.
Proof.
  intros Hnow. unfold daysUntilExpiry. apply ceil_div_mono; [apply msPerDay_pos | lia].
Qed.

Lemma statusLabel_cases now (item : FoodItem N) :
  (daysUntilExpiry now item <= 0 /\
   Dashboard.statusLabel now item = "Expired"%string /\
   Dashboard.statusColor now item = "bg-red-100 text-red-800"%string) \/
  (1 <= daysUntilExpiry now item <= 3 /\
   Dashboard.statusLabel now item = "Expiring Soon"%string /\
   Dashboard.statusColor now item = "bg-yellow-100 text-yellow-800"%string) \/
  (3 < daysUntilExpiry now item /\
   Dashboard.statusLabel now item = "Active"%string /\
   Dashboard.statusColor now item = "bg-green-100 text-green-800"%string).
Proof.
  unfold Dashboard.statusLabel, Dashboard.statusColor. cbv zeta.
  destruct (Z.leb_spec (daysUntilExpiry now item) 0);
    [left; auto|].
  destruct (Z.leb_spec (daysUntilExpiry now item) 3);
    [right; left; repeat split; auto; lia | right; right; auto].
Qed.
End AnyArithmetic.
End DashboardProps.

Module DashboardExact.
Import App AppProps DashboardProps.
Local Existing Instance Real | 0.
Local Open Scope R_scope.

Lemma total_nil : @calculateTotalInventoryValue Real [] = 0.
Proof. reflexivity. Qed.

Lemma filter_total_bounds (p : FoodItem Real -> bool) (inventory : list (FoodItem Real)) :
  (forall item, In item inventory -> 0 <= quantity item /\ 0 <= costPerKg item) ->
  0 <= calculateTotalInventoryValue (List.filter p inventory)
    <= calculateTotalInventoryValue inventory.
Proof.
  induction inventory as [|item rest IH]; intros Hpos.
  - cbn [List.filter]. rewrite total_nil. lra.
  - destruct (Hpos item (or_introl eq_refl)) as [Hq Hc].
    assert (Hv : 0 <= quantity item * costPerKg item) by (apply Rmult_le_pos; assumption).
    assert (Hrest : 0 <= calculateTotalInventoryValue (List.filter p rest)
                    <= calculateTotalInventoryValue rest)
      by (apply IH; intros x Hx; apply Hpos; right; exact Hx).
    cbn [List.filter]. destruct (p item); rewrite ?total_cons; lra.
Qed.

(** Sums of reals do not depend on the order of the summands. *)
Lemma sum_by_Rsum {A} (f : A -> R) (l : list A) :
  @sum_by Real _ f l = Rsum (List.map f l).
Proof.
  unfold sum_by. real_arith. rewrite ForecasterProps.fold_left_Rsum. lra.
Qed.

Lemma Rsum_filter_Permutation {A} (f : A -> R) (p : A -> bool) (l l' : list A) :
  Permutation l l' ->
  Rsum (List.map f (List.filter p l)) = Rsum (List.map f (List.filter p l')).
Proof.
  induction 1 as [|x l l' _ IH|x y l|l l' l'' _ IH1 _ IH2].
  - reflexivity.
  - cbn [List.filter]. destruct (p x); cbn [List.map Rsum fold_right];
      fold (Rsum (List.map f (List.filter p l)));
      fold (Rsum (List.map f (List.filter p l'))); rewrite ?IH; reflexivity.
  - cbn [List.filter]. destruct (p x), (p y); cbn [List.map Rsum fold_right];
      fold (Rsum (List.map f (List.filter p l))); lra.
  - congruence.
Qed.

Lemma sum_by_filter_Permutation {A} (f : A -> R) (p : A -> bool) (l l' : list A) :
  Permutation l l' ->
  @sum_by Real _ f (List.filter p l) = @sum_by Real _ f (List.filter p l').
Proof. intros H. rewrite !sum_by_Rsum. apply Rsum_filter_Permutation, H. Qed.

Lemma sum_by_Permutation {A} (f : A -> R) (l l' : list A) :
  Permutation l l' -> @sum_by Real _ f l = @sum_by Real _ f l'.
Proof.
  intros H. pose proof (sum_by_filter_Permutation f (fun _ => true) l l' H) as Hf.
  rewrite !forallb_filter_id in Hf by (apply forallb_forall; reflexivity).
  exact Hf.
Qed.
End DashboardExact.

(** ** Further properties of the dashboard *)

Module DashboardSpec.
Import App AppProps DashboardProps DashboardExact.

(** X7.  The status cell of the inventory table agrees with the expiry
    chart: a row is labelled Expired exactly when its item falls in the
    expired bucket, Expiring Soon exactly when it falls in the critical
    bucket, Active exactly when it falls in the warning or the safe bucket,
    and the colour follows the label.  When the offset of the zone does not
    change over the next three days, the rows not labelled Active are
    exactly the items the at-risk card counts. *)
Theorem table_status_agrees_with_buckets
        (N : Number) (tz : TimeZone) (now : Z) (item : FoodItem N) :
  let days := daysUntilExpiry now item in
  let label := Dashboard.statusLabel now item in
  let colour := Dashboard.statusColor now item in
  (label = "Expired"%string <-> inBucket Expired days = true) /\
  (label = "Expiring Soon"%string <-> inBucket Critical days = true) /\
  (label = "Active"%string <->
     inBucket Warning days = true \/ inBucket Safe days = true) /\
  (colour = "bg-red-100 text-red-800"%string <-> label = "Expired"%string) /\
  (colour = "bg-yellow-100 text-yellow-800"%string <->
     label = "Expiring Soon"%string) /\
  (colour = "bg-green-100 text-green-800"%string <-> label = "Active"%string) /\
  (sameOffset tz now 3 ->
   (label <> "Active"%string <-> (expiryDate item <=? addDays tz now 3) = true)).
Proof.
  cbv zeta. rewrite !inBucket_spec.
  assert (Hrisk : sameOffset tz now 3 ->
            ((expiryDate item <=? addDays tz now 3) = true
             <-> daysUntilExpiry now item <= 3))
    by (intros Hsame; apply atRisk_due, Hsame).
  destruct (statusLabel_cases now item)
    as [(Hd & -> & ->) | [(Hd & -> & ->) | (Hd & -> & ->)]];
    repeat split; intros; try discriminate; try reflexivity; try congruence;
    try lia; try (apply Hrisk; [assumption|lia]);
    try (exfalso; apply Hrisk in H0; [lia|assumption]).
Qed.

(** X8.  Expiry only advances with time: at a later instant an item has no
    more days until expiry than before; a row labelled Expired stays
    Expired, a row that is Active then was Active before, and no item
    enters the safe bucket. *)
Theorem expiry_only_advances (N : Number) (now now' : Z) (item : FoodItem N) :
  now <= now' ->
  daysUntilExpiry now' item <= daysUntilExpiry now item /\
  (Dashboard.statusLabel now item = "Expired"%string ->
   Dashboard.statusLabel now' item = "Expired"%string) /\
  (Dashboard.statusLabel now' item = "Active"%string ->
   Dashboard.statusLabel now item = "Active"%string) /\
  (inBucket Safe (daysUntilExpiry now' item) = true ->
   inBucket Safe (daysUntilExpiry now item) = true).
Proof.
  intros Hnow. pose proof (daysUntilExpiry_antitone now now' item Hnow) as Hdays.
  split; [exact Hdays|]. rewrite !inBucket_spec.
  destruct (statusLabel_cases now item)
    as [(Hd & -> & _) | [(Hd & -> & _) | (Hd & -> & _)]];
    destruct (statusLabel_cases now' item)
      as [(Hd' & -> & _) | [(Hd' & -> & _) | (Hd' & -> & _)]];
    repeat split; intros; try discriminate; try reflexivity; lia.
Qed.

Lemma expiry_only_advances_witness :
  daysUntilExpiry (Scenario.now + 3 * msPerDay) Scenario.apples
    <= daysUntilExpiry Scenario.now Scenario.apples /\
  Dashboard.statusLabel Scenario.now Scenario.apples = "Expiring Soon"%string /\
  Dashboard.statusLabel (Scenario.now + 3 * msPerDay) Scenario.apples
    = "Expired"%string.
Proof.
  split.
  - apply (expiry_only_advances Float64 Scenario.now (Scenario.now + 3 * msPerDay)
             Scenario.apples).
    vm_compute. discriminate.
  - vm_compute. split; reflexivity.
Defined.

(** X9.  In exact arithmetic, when no quantity and no price is negative,
    the at-risk value, in whatever time zone, and each of the four bucket
    totals lie between 0 and the total inventory value. *)
Theorem at_risk_and_buckets_bounded
        (tz : TimeZone) (now : Z) (inventory : list (FoodItem Real)) :
  (forall item, In item inventory ->
     (0 <= quantity item)%R /\ (0 <= costPerKg item)%R) ->
  (0 <= atRiskValue tz now inventory <= calculateTotalInventoryValue inventory)%R /\
  forall b,
    (0 <= bucketTotal b (expiryRanges now inventory)
       <= calculateTotalInventoryValue inventory)%R.
Proof.
  intros Hpos. split.
  - apply (filter_total_bounds (fun item => expiryDate item <=? addDays tz now 3)
             inventory Hpos).
  - intros b. unfold expiryRanges. rewrite expiry_fold_bucket.
    replace (bucketTotal b _) with (@nofZ Real 0) by (destruct b; reflexivity).
    apply (filter_total_bounds (fun item => inBucket b (daysUntilExpiry now item))
             inventory Hpos).
Qed.

Lemma at_risk_and_buckets_bounded_witness :
  (0 <= atRiskValue Zones.centralEurope ExactLeftovers.now ExactLeftovers.inventory
     <= calculateTotalInventoryValue ExactLeftovers.inventory)%R.
Proof.
  apply (at_risk_and_buckets_bounded Zones.centralEurope ExactLeftovers.now
           ExactLeftovers.inventory).
  intros item [<- | [<- | [<- | []]]]; cbn; lra.
Defined.

(** X10.  In exact arithmetic, the figures of the dashboard do not depend on
    the order of the records: the total value, the at-risk value and the
    four bucket totals of a reordered inventory, and the total cost of a
    reordered waste history, are the same. *)
Theorem totals_independent_of_order
        (tz : TimeZone) (now : Z) (inventory inventory' : list (FoodItem Real))
        (wasteData wasteData' : list (Dashboard.WasteData Real)) :
  Permutation inventory inventory' ->
  Permutation wasteData wasteData' ->
  calculateTotalInventoryValue inventory = calculateTotalInventoryValue inventory' /\
  atRiskValue tz now inventory = atRiskValue tz now inventory' /\
  (forall b, bucketTotal b (expiryRanges now inventory)
             = bucketTotal b (expiryRanges now inventory')) /\
  Dashboard.calculateTotalWasteCost wasteData
    = Dashboard.calculateTotalWasteCost wasteData'.
Proof.
  intros Hinv Hwaste. repeat split.
  - apply (sum_by_Permutation (@itemValue Real)), Hinv.
  - apply (sum_by_filter_Permutation (@itemValue Real)), Hinv.
  - intros b. unfold expiryRanges. rewrite !expiry_fold_bucket.
    replace (bucketTotal b _) with (@nofZ Real 0) by (destruct b; reflexivity).
    apply (sum_by_filter_Permutation (@itemValue Real)
             (fun item => inBucket b (daysUntilExpiry now item))), Hinv.
  - apply (sum_by_Permutation (@Dashboard.cost Real)), Hwaste.
Qed.

Lemma totals_independent_of_order_witness :
  calculateTotalInventoryValue ExactLeftovers.inventory
  = calculateTotalInventoryValue (List.rev ExactLeftovers.inventory).
Proof.
  apply (totals_independent_of_order Zones.utc ExactLeftovers.now
           ExactLeftovers.inventory (List.rev ExactLeftovers.inventory)
           ExactLeftovers.wasteData (List.rev ExactLeftovers.wasteData)).
  - apply Permutation_rev.
  - apply Permutation_rev.
Defined.

End DashboardSpec.

(** ** Further properties of the forecaster *)

Module ForecasterMoreProps.
Import WastePredictionModel JsProps ForecasterProps.

Section AnyLibrary.
Context `{N : Number} {L : Library N}.

Implicit Types (st : State L) (input : WastePredictionInput N).

Lemma retrain_keeps newData w c k st :
  is_Some (categoryModels st !! k) ->
  is_Some (categoryModels (snd (retrain newData w c st)) !! k).
Proof.
  intros Hk. unfold retrain. destruct (negb (truthy c)); [exact Hk|].
  destruct c as [name|]; [|exact Hk].
  rewrite trainCategoryModel_eq. destruct (fitCategory _ _); [|exact Hk].
  cbn. destruct (decide (name = k)) as [->|Hne].
  - rewrite lookup_insert_eq. eauto.
  - rewrite lookup_insert_ne by exact Hne. exact Hk.
Qed.

Lemma forEach_keeps newData w cats k st :
  is_Some (categoryModels st !! k) ->
  is_Some (categoryModels (snd (forEach cats (retrain newData w) st)) !! k).
Proof.
  revert st. induction cats as [|c cats IH]; intros st Hk; [exact Hk|].
  cbn [forEach]. unfold bind.
  pose proof (retrain_keeps newData w c k st Hk) as Hc.
  destruct (retrain newData w c st) as [[[]|e] st1]; cbn [snd] in *.
  - apply IH, Hc.
  - exact Hc.
Qed.

Lemma updateModel_keeps newData w k st :
  is_Some (categoryModels st !! k) ->
  is_Some (categoryModels (snd (updateModel newData w st)) !! k).
Proof.
  intros Hk. unfold updateModel, bind.
  pose proof (train_categoryModels (List.map fields newData) w st) as Ht.
  destruct (train _ _ st) as [[[]|e] st1]; cbn [snd] in *.
  - apply forEach_keeps. rewrite Ht. exact Hk.
  - rewrite Ht. exact Hk.
Qed.

Lemma updateModel_frame_categories newData w k st :
  ~ In (Some k) (newSet (List.filter truthy
                           (List.map (fun d => category (fields d)) newData))) ->
  categoryModels (snd (updateModel newData w st)) !! k = categoryModels st !! k.
Proof.
  intros Hnot. unfold updateModel, bind.
  pose proof (train_categoryModels (List.map fields newData) w st) as Ht.
  destruct (train _ _ st) as [[[]|e] st1]; cbn [snd] in *.
  - rewrite forEach_frame, Ht by exact Hnot. reflexivity.
  - rewrite Ht. reflexivity.
Qed.

Lemma in_batch_dec (newData : list (ObjRef (WastePredictionInput N))) (k : string) :
  (exists d, In d newData /\ category (fields d) = Some k) \/
  (forall d, In d newData -> category (fields d) <> Some k).
Proof.
  induction newData as [|d rest [IH|IH]].
  - right. intros d [].
  - left. destruct IH as (d' & Hin & Hd). exists d'. cbn. auto.
  - destruct (decide (category (fields d) = Some k)) as [Hd|Hd].
    + left. exists d. cbn. auto.
    + right. intros d' [<-|Hin]; [exact Hd|exact (IH d' Hin)].
Qed.

End AnyLibrary.
End ForecasterMoreProps.

Module ForecasterMore.
Import WastePredictionModel JsProps ForecasterProps ForecasterMoreProps.

(** X6.  [train] checks nothing itself: it throws only the error object
    that one of its library calls threw; it builds the linear regressor
    first, and when that throws the forecaster is unchanged; once the
    regressor is built, the linear component is replaced, and the network
    component holds the freshly compiled network when making a tensor
    throws, and that network as the fit left it otherwise; when every
    library call succeeds, [train] succeeds; and the per-category map is
    never changed. *)
Theorem train_failure_and_partial_assignment :
  forall (N : Number) (L : Library N)
         (historicalData : list (WastePredictionInput N))
         (wasteAmounts : list num) (st : State L),
    let X := List.map featureRow historicalData in
    let y := List.map (fun amount => [amount]) wasteAmounts in
    let net := tf_compile L (tf_sequential L generalLayers) generalCompile in
    (forall e, fst (train historicalData wasteAmounts st) = Throw e ->
               mlr_new L X y = Throw e \/
               tf_tensor2d L (rows X) = Throw e \/
               tf_tensor2d L (rows y) = Throw e \/
               exists xs ys fitted,
                 tf_tensor2d L (rows X) = Ok xs /\
                 tf_tensor2d L (rows y) = Ok ys /\
                 tf_fit L net xs ys generalFit = (fitted, Some e)) /\
    (forall e, mlr_new L X y = Throw e ->
               train historicalData wasteAmounts st = (Throw e, st)) /\
    (forall lin, mlr_new L X y = Ok lin ->
                 mlr (snd (train historicalData wasteAmounts st)) = Some lin /\
                 model (snd (train historicalData wasteAmounts st)) =
                   match tf_tensor2d L (rows X), tf_tensor2d L (rows y) with
                   | Ok xs, Ok ys => Some (fst (tf_fit L net xs ys generalFit))
                   | _, _ => Some net
                   end) /\
    (forall lin xs ys fitted,
        mlr_new L X y = Ok lin ->
        tf_tensor2d L (rows X) = Ok xs ->
        tf_tensor2d L (rows y) = Ok ys ->
        tf_fit L net xs ys generalFit = (fitted, None) ->
        train historicalData wasteAmounts st =
        (Ok tt, {| model := Some fitted; mlr := Some lin;
                   categoryModels := categoryModels st |})) /\
    categoryModels (snd (train historicalData wasteAmounts st)) = categoryModels st.
Proof.
  intros N L h w st X y net. split; [|split; [|split; [|split]]].
  - apply train_failure_source.
  - apply train_regressor_throws.
  - intros lin. apply train_partial.
  - intros lin xs ys fitted. apply train_succeeds.
  - apply train_categoryModels.
Qed.

(** Over the stand-in, [train] on two samples and two targets replaces both
    general components. *)
Lemma train_failure_and_partial_assignment_witness :
  mlr Trial.trained
    = Some ([featureRow (Trial.observation 1 None);
             featureRow (Trial.observation 2 None)],
            [[150%float]; [120%float]]) /\
  model Trial.trained <> None.
Proof.
  pose proof (proj1 (proj2 (proj2
    (train_failure_and_partial_assignment Float64 Trial.lib
       [Trial.observation 1 None; Trial.observation 2 None]
       [150%float; 120%float] initial)))
    ([featureRow (Trial.observation 1 None);
      featureRow (Trial.observation 2 None)],
     [[150%float]; [120%float]]) eq_refl) as [Hmlr Hmodel].
  split; [exact Hmlr|]. unfold Trial.trained. rewrite Hmodel. discriminate.
Defined.

(** X11.  [updateModel] never removes a per-category component, whether it
    succeeds or throws: every category that has a component before the call
    has one after it, and a category that has one after the call had one
    before or is the non-empty category of a sample of the batch. *)
Theorem updateModel_never_removes_a_category
        (N : Number) (L : Library N)
        (newData : list (ObjRef (WastePredictionInput N)))
        (newWasteAmounts : list num) (st : State L) (k : string) :
  (is_Some (categoryModels st !! k) ->
   is_Some (categoryModels (snd (updateModel newData newWasteAmounts st)) !! k)) /\
  (is_Some (categoryModels (snd (updateModel newData newWasteAmounts st)) !! k) ->
   is_Some (categoryModels st !! k) \/
   (k <> ""%string /\
    exists d, In d newData /\ category (fields d) = Some k)).
Proof.
  split; [apply updateModel_keeps|]. intros Hafter.
  destruct (String.eqb_spec k "") as [->|Hk].
  - left. rewrite updateModel_frame_categories in Hafter; [exact Hafter|].
    rewrite category_in_batch. intros [Ht _]. discriminate.
  - destruct (in_batch_dec newData k) as [Hin|Hout].
    + right. split; assumption.
    + left. rewrite updateModel_frame in Hafter; assumption.
Qed.

(** X12.  A component fitted by [trainCategoryModel] is the one [predict]
    consults: after [trainCategoryModel(c, ...)] has succeeded on a trained
    forecaster with a non-empty [c], [predict] on an observation of category
    [c] returns, as category prediction, the answer of the network just
    fitted, and the general predictions it returned before. *)
Theorem category_model_round_trip
        (N : Number) (L : Library N) (c : string)
        (data : list (WastePredictionInput N)) (waste : list (option num))
        (input : WastePredictionInput N) (st st' : State L)
        (before : PredictionResult N) :
  c <> ""%string -> category input = Some c ->
  predict input st = (Ok before, st) ->
  trainCategoryModel c data waste st = (Ok tt, st') ->
  exists fitted after,
    fitCategory data waste = Ok fitted /\
    predict input st' = (Ok after, st') /\
    categoryPrediction after = Some (tf_predict L fitted (featureRow input)) /\
    nnPrediction after = nnPrediction before /\
    mlrPrediction after = mlrPrediction before.
Proof.
  intros Hc Hcat Hbefore Htrain.
  rewrite trainCategoryModel_eq in Htrain.
  destruct (fitCategory data waste) as [fitted|e] eqn:Hfit; [|discriminate].
  injection Htrain as <-.
  destruct (predict_ok_inv input st before st Hbefore) as (net & lin & Hm & Hl).
  destruct (predict_trained input st net lin Hm Hl)
    as (r & Hr & Hnn & Hmlr & _).
  rewrite Hbefore in Hr. injection Hr as <-.
  destruct (predict_trained input (set_category c fitted st) net lin Hm Hl)
    as (after & Hafter & Hnn' & Hmlr' & Hcp & _).
  exists fitted, after. split; [reflexivity|]. split; [exact Hafter|].
  split; [|split; congruence].
  rewrite Hcp, Hcat.
  assert (Ht : truthy (Some c) = true)
    by (cbn; apply negb_true_iff, String.eqb_neq, Hc).
  rewrite Ht. cbn. rewrite lookup_insert_eq. reflexivity.
Qed.

(** Over the stand-in: after a Produce component has been fitted on
    targets 90 and 80, [predict] consults it for Produce. *)
Lemma category_model_round_trip_witness :
  let data := [Trial.observation 1 (Some "Produce"%string);
               Trial.observation 2 (Some "Produce"%string)] in
  let waste := [Some 90%float; Some 80%float] in
  let input := Trial.observation 1 (Some "Produce"%string) in
  let st' := snd (trainCategoryModel (L := Trial.lib) "Produce" data waste
                                     Trial.trained) in
  exists fitted after,
    fitCategory (L := Trial.lib) data waste = Ok fitted /\
    predict input st' = (Ok after, st') /\
    categoryPrediction after = Some (tf_predict Trial.lib fitted (featureRow input)).
Proof.
  intros data waste input st'.
  destruct (category_model_round_trip Float64 Trial.lib "Produce" data waste
              input Trial.trained st'
              (match fst (predict input Trial.trained) with
               | Ok r => r
               | Throw _ => @Build_PredictionResult Float64 0%float 0%float None 0%float
               end)
              ltac:(discriminate) eq_refl eq_refl eq_refl)
    as (fitted & after & Hfit & Hafter & Hcp & _).
  exists fitted, after. repeat split; assumption.
Defined.

(** X13.  The category of an observation selects a component and nothing
    else: on one forecaster, two observations with the same five features
    get the same network and regressor predictions whatever their
    categories, and [predict] succeeds for one exactly when it succeeds for
    the other. *)
Theorem general_predictions_ignore_category
        (N : Number) (L : Library N)
        (input input' : WastePredictionInput N) (st : State L) :
  featureRow input = featureRow input' ->
  match fst (predict input st), fst (predict input' st) with
  | Ok r, Ok r' =>
      nnPrediction r = nnPrediction r' /\ mlrPrediction r = mlrPrediction r' /\
      (category input = category input' -> r = r')
  | Throw e, Throw e' => e = e'
  | _, _ => False
  end.
Proof.
  intros Hrow. unfold predict; monad_unfold.
  destruct (model st), (mlr st); cbn [fst]; try reflexivity.
  cbn [nnPrediction mlrPrediction]. rewrite Hrow.
  split; [reflexivity|]. split; [reflexivity|].
  intros ->. reflexivity.
Qed.

Lemma general_predictions_ignore_category_witness :
  match fst (predict (L := Trial.lib) (Trial.observation 1 (Some "Produce"%string))
                     Trial.trainedWithProduce),
        fst (predict (L := Trial.lib) (Trial.observation 1 None)
                     Trial.trainedWithProduce) with
  | Ok r, Ok r' =>
      nnPrediction r = nnPrediction r' /\ mlrPrediction r = mlrPrediction r' /\
      categoryPrediction r = Some 150%float /\ categoryPrediction r' = None
  | _, _ => False
  end.
Proof.
  pose proof (general_predictions_ignore_category Float64 Trial.lib
                (Trial.observation 1 (Some "Produce"%string))
                (Trial.observation 1 None) Trial.trainedWithProduce eq_refl) as H.
  destruct (fst (predict (Trial.observation 1 (Some "Produce"%string))
                         Trial.trainedWithProduce)) as [r|e] eqn:Hr;
    destruct (fst (predict (Trial.observation 1 None) Trial.trainedWithProduce))
      as [r'|e'] eqn:Hr'; try discriminate.
  destruct H as (Hnn & Hmlr & _). split; [exact Hnn|]. split; [exact Hmlr|].
  vm_compute in Hr, Hr'. injection Hr as <-. injection Hr' as <-.
  split; reflexivity.
Defined.

End ForecasterMore.

(** ** The hook *)

Module HookProps.
Import WastePredictionModel ForecasterProps useWastePrediction.

Section AnyLibrary.
Context `{N : Number} {L : Library N}.

Lemma predictWaste_state (input : WastePredictionInput N) (hs : HookState L) :
  snd (predictWaste input hs) = hs.
Proof.
  unfold predictWaste. destruct hs as [[instance|] l e t];
    cbn [model loading error trainingData]; [|reflexivity].
  pose proof (predict_state input instance) as Hst.
  destruct (predict input instance) as [outcome instance']. cbn [snd] in *.
  rewrite Hst. reflexivity.
Qed.

Lemma predictWaste_outcome (input : WastePredictionInput N) (hs : HookState L) :
  fst (predictWaste input hs) =
  match model hs with
  | None => Throw (Error "Model not initialized")
  | Some instance => fst (predict input instance)
  end.
Proof.
  unfold predictWaste. destruct (model hs) as [instance|]; [|reflexivity].
  destruct (predict input instance). reflexivity.
Qed.

Lemma updateModel_model (newData : TrainingData N) (hs : HookState L) :
  (model hs = None -> updateModel newData hs = hs) /\
  (model hs <> None -> model (updateModel newData hs) <> None) /\
  (error hs <> None -> error (updateModel newData hs) <> None).
Proof.
  unfold updateModel. destruct (model hs) as [instance|] eqn:Hm.
  - destruct (WastePredictionModel.updateModel _ _ instance) as [[[]|e] instance'];
      cbn; repeat split; congruence.
  - repeat split; congruence.
Qed.

Lemma call_invariants (c : Call N) (hs : HookState L) :
  (model hs = None -> call hs c = hs) /\
  (model hs <> None -> model (call hs c) <> None) /\
  (error hs <> None -> error (call hs c) <> None).
Proof.
  destruct c as [newData|input]; cbn [call].
  - apply updateModel_model.
  - rewrite predictWaste_state. auto.
Qed.

End AnyLibrary.
End HookProps.

Module HookSpec.
Import WastePredictionModel ForecasterProps useWastePrediction HookProps.

(** X14.  Mounted without initial data, as the dashboard mounts it, the
    hook holds a forecaster that was never trained: before the effect has
    run [predictWaste] throws [Error('Model not initialized')], and after
    it, for every observation and however often it is called, it throws
    [Error('Model not trained')] and leaves the hook as it is. *)
Theorem hook_without_data_never_predicts
        (N : Number) (L : Library N) (input : WastePredictionInput N)
        (inputs : list (WastePredictionInput N)) :
  let mounted : HookState L := mount None in
  let ready := initializeModel mounted in
  predictWaste input mounted = (Throw (Error "Model not initialized"), mounted) /\
  model ready = Some initial /\ loading ready = false /\ error ready = None /\
  calls (List.map callPredictWaste inputs) ready = ready /\
  predictWaste input ready = (Throw (Error "Model not trained"), ready).
Proof.
  cbv zeta. split; [reflexivity|]. split; [reflexivity|].
  split; [reflexivity|]. split; [reflexivity|]. split; [|reflexivity].
  induction inputs as [|i inputs IH]; [reflexivity|].
  cbn [List.map calls fold_left call] in *. rewrite predictWaste_state. exact IH.
Qed.

(** X15.  Mounted with initial data, the hook trains a fresh forecaster on
    them.  When training succeeds the hook holds the trained forecaster, no
    error message, and [predictWaste] returns a result for every
    observation.  When training throws, the forecaster is dropped: the hook
    holds no model and the message 'Failed to initialize waste prediction
    model', and [predictWaste] throws [Error('Model not initialized')].
    Either way the hook has stopped loading and keeps the data. *)
Theorem hook_initialize_with_data
        (N : Number) (L : Library N)
        (inputs : list (ObjRef (WastePredictionInput N))) (outputs : list num) :
  let ready : HookState L := initializeModel (mount (Some (inputs, outputs))) in
  loading ready = false /\ trainingData ready = Some (inputs, outputs) /\
  match train (List.map fields inputs) outputs initial with
  | (Ok _, trained) =>
      model ready = Some trained /\ error ready = None /\
      forall input, exists r, predictWaste input ready = (Ok r, ready)
  | (Throw _, _) =>
      model ready = None /\
      error ready = Some "Failed to initialize waste prediction model"%string /\
      forall input,
        predictWaste input ready = (Throw (Error "Model not initialized"), ready)
  end.
Proof.
  cbv zeta. unfold initializeModel, mount. cbn [trainingData].
  destruct (train (List.map fields inputs) outputs initial) as [[[]|e] trained] eqn:Ht;
    cbn [loading trainingData model error]; repeat split.
  intros input.
  destruct (train_ok_inv _ _ _ _ Ht) as (lin & xs & ys & fitted & _ & _ & _ & _ & ->).
  destruct (predict_trained input
              {| WastePredictionModel.model := Some fitted; mlr := Some lin;
                 categoryModels := categoryModels initial |}
              fitted lin eq_refl eq_refl) as (r & Hr & _).
  exists r. unfold predictWaste. cbn [model]. rewrite Hr. reflexivity.
Qed.

(** Over the stand-in: two samples with targets 150 and 120 give a hook
    that predicts; one sample with two targets gives a hook without a
    model. *)
Lemma hook_initialize_with_data_witness :
  (exists r,
     predictWaste (L := Trial.lib) (Trial.observation 1 None)
       (initializeModel (mount (Some ([Trial.produce; Trial.produce'],
                                      [150%float; 120%float]))))
     = (Ok r, initializeModel (mount (Some ([Trial.produce; Trial.produce'],
                                            [150%float; 120%float]))))) /\
  model (initializeModel (L := Trial.lib)
           (mount (Some ([Trial.produce], [150%float; 120%float])))) = None.
Proof.
  split.
  - apply (proj2 (proj2 (proj2 (proj2
      (hook_initialize_with_data Float64 Trial.lib [Trial.produce; Trial.produce']
         [150%float; 120%float]))))).
  - apply (proj2 (proj2
      (hook_initialize_with_data Float64 Trial.lib [Trial.produce]
         [150%float; 120%float]))).
Defined.

(** X16.  Whatever a component calls on the hook afterwards, and in
    whatever order: a hook without a model stays exactly as it is, so a
    failed initialisation is never retried; a hook with a model never loses
    it; and an error message, once set, is never cleared, not even by an
    update that succeeds. *)
Theorem hook_call_invariants
        (N : Number) (L : Library N) (cs : list (Call N)) (hs : HookState L) :
  (model hs = None -> calls cs hs = hs) /\
  (model hs <> None -> model (calls cs hs) <> None) /\
  (error hs <> None -> error (calls cs hs) <> None).
Proof.
  revert hs. induction cs as [|c cs IH]; intros hs; [cbn; auto|].
  cbn [calls fold_left]. fold (calls cs (call hs c)).
  destruct (call_invariants c hs) as (Hnone & Hsome & Herr).
  destruct (IH (call hs c)) as (IHnone & IHsome & IHerr).
  split; [|split].
  - intros Hm. rewrite (Hnone Hm). rewrite (Hnone Hm) in IHnone. auto.
  - auto.
  - auto.
Qed.

(** Over the stand-in: after a failed initialisation an update with a sound
    batch changes nothing, and the hook still has no model. *)
Lemma hook_call_invariants_witness :
  let failed : HookState Trial.lib :=
    initializeModel (mount (Some ([Trial.produce], [150%float; 120%float]))) in
  calls [callUpdateModel ([Trial.produce; Trial.produce'], [150%float; 120%float]);
         callPredictWaste (Trial.observation 1 None)] failed = failed.
Proof.
  intros failed.
  apply (proj1 (hook_call_invariants Float64 Trial.lib
                  [callUpdateModel ([Trial.produce; Trial.produce'],
                                    [150%float; 120%float]);
                   callPredictWaste (Trial.observation 1 None)] failed)).
  reflexivity.
Defined.

End HookSpec.

(** ** The prediction card and the observation of the form *)

Module CardProps.
Import FloatProps MLPredictionCard.

Lemma SFcompare_finite_nonneg (m M : positive) (e E : Z) :
  SFcompare (S754_finite false m e) (S754_finite false M E) =
  Some (match e ?= E with
        | Lt => Lt
        | Gt => Gt
        | Eq => Pos.compare m M
        end).
Proof. reflexivity. Qed.

(** Comparisons of a double with the thresholds 70 and 90 of the card. *)
Lemma thresholds conf :
  (PrimFloat.ltb conf 70 = true ->
   PrimFloat.leb 70 conf = false /\ PrimFloat.leb 90 conf = false) /\
  (PrimFloat.leb 70 conf = false ->
   PrimFloat.ltb conf 70 = true \/ PrimFloat.is_nan conf = true) /\
  (PrimFloat.is_nan conf = true ->
   PrimFloat.ltb conf 70 = false /\ PrimFloat.leb 70 conf = false /\
   PrimFloat.leb 90 conf = false).
Proof.
  unfold PrimFloat.is_nan. rewrite !ltb_spec, !leb_spec, FloatAxioms.eqb_spec.
  change (Prim2SF 70) with (S754_finite false 4925812092436480 (-46)).
  change (Prim2SF 90) with (S754_finite false 6333186975989760 (-46)).
  unfold SFltb, SFleb, SFeqb.
  destruct (Prim2SF conf) as [s|s| |s m e].
  - destruct s; cbn [SFcompare negb]; repeat split; intros; try discriminate; auto.
  - destruct s; cbn [SFcompare negb]; repeat split; intros; try discriminate; auto.
  - cbn [SFcompare negb]; repeat split; intros; try discriminate; auto.
  - destruct s.
    + cbn [SFcompare negb]. rewrite Z.compare_refl, Pos.compare_cont_refl.
      cbn [CompOpp negb]. repeat split; intros; try discriminate; auto.
    + rewrite !SFcompare_finite_nonneg.
      rewrite Z.compare_refl, Pos.compare_refl. cbn [negb].
      rewrite (Z.compare_antisym e (-46)).
      rewrite (Pos.compare_antisym m 4925812092436480).
      rewrite (Pos.compare_antisym m 6333186975989760).
      destruct (Z.compare_spec e (-46)) as [He|He|He]; cbn [CompOpp];
        [|repeat split; intros; try discriminate; auto
         |repeat split; intros; try discriminate; auto].
      destruct (Pos.compare_spec m 4925812092436480) as [Hm|Hm|Hm];
        destruct (Pos.compare_spec m 6333186975989760) as [Hm'|Hm'|Hm'];
        cbn [CompOpp]; repeat split; intros; try discriminate;
        try reflexivity; try (left; reflexivity); exfalso.
      * rewrite Hm' in Hm. vm_compute in Hm. discriminate.
      * pose proof (Pos.lt_trans _ _ _ Hm' Hm) as Habs.
        vm_compute in Habs. discriminate.
Qed.

Lemma colour_and_badge conf :
  (lowConfidence conf = true -> getConfidenceColor conf = "text-red-600"%string) /\
  ((getConfidenceColor conf = "text-red-600"%string /\ lowConfidence conf = false)
   <-> PrimFloat.is_nan conf = true).
Proof.
  destruct (thresholds conf) as (Hlow & Hred & Hnan).
  unfold lowConfidence, getConfidenceColor. split.
  - intros H. destruct (Hlow H) as [-> ->]. reflexivity.
  - split.
    + intros [Hc Hl]. destruct (PrimFloat.leb 90 conf); [discriminate|].
      destruct (PrimFloat.leb 70 conf) eqn:H70; [discriminate|].
      destruct (Hred eq_refl) as [H|H]; [congruence|exact H].
    + intros H. destruct (Hnan H) as (-> & -> & ->). split; reflexivity.
Qed.

(** Adding a double to [+0] gives it back, unless it is [-0]. *)
Lemma zero_plus a : a <> (-0)%float -> (0 + a)%float = a.
Proof.
  intros Ha. apply Prim2SF_inj. rewrite add_spec.
  change (Prim2SF 0) with (S754_zero false).
  destruct (Prim2SF a) as [[]| | |s m e] eqn:Hsf; try reflexivity.
  exfalso. apply Ha. apply Prim2SF_inj. rewrite Hsf. reflexivity.
Qed.

End CardProps.

Module CardSpec.
Import WastePredictionModel ForecasterProps FloatProps MLPredictionCard CardProps.

(** X17.  What the card shows of a prediction, on doubles: with the "Low
    Confidence" warning the percentage is always red; the percentage is red
    without the warning exactly when the confidence is NaN; and that is
    what the card shows whenever one of the predictions is NaN. *)
Theorem card_of_a_prediction
        (L : Library Float64) (input : WastePredictionInput Float64)
        (st st' : State L) (r : PredictionResult Float64) :
  predict input st = (Ok r, st') ->
  (lowConfidence (confidence r) = true ->
   getConfidenceColor (confidence r) = "text-red-600"%string) /\
  ((getConfidenceColor (confidence r) = "text-red-600"%string /\
    lowConfidence (confidence r) = false)
   <-> PrimFloat.is_nan (confidence r) = true) /\
  ((exists x, In x (available r) /\ isNaN x) ->
   getConfidenceColor (confidence r) = "text-red-600"%string /\
   lowConfidence (confidence r) = false).
Proof.
  intros Hp. destruct (colour_and_badge (confidence r)) as [Hlow Hnan].
  split; [exact Hlow|]. split; [exact Hnan|].
  intros Hx. apply Hnan.
  destruct (predict_ok_inv input st r st' Hp) as (net & lin & Hm & Hl).
  destruct (predict_trained input st net lin Hm Hl) as (r' & Hp' & _ & _ & _ & Hc).
  rewrite Hp in Hp'. injection Hp' as <- _.
  rewrite Hc, (confidenceOf_NaN _ Hx). reflexivity.
Qed.

(** After a fit that diverged the card is red and shows no warning. *)
Lemma card_of_a_prediction_witness :
  exists r,
    predict (L := Trial.lib) (Trial.observation 1 None) Trial.diverged
      = (Ok r, Trial.diverged) /\
    getConfidenceColor (confidence r) = "text-red-600"%string /\
    lowConfidence (confidence r) = false.
Proof.
  eexists. split; [reflexivity|].
  apply (proj2 (proj2 (card_of_a_prediction Trial.lib (Trial.observation 1 None)
                         Trial.diverged Trial.diverged _ eq_refl))).
  exists PrimFloat.nan. split; [left; reflexivity|reflexivity].
Defined.

(** X18.  The ensemble figure of the card is the mean that [predict] used
    for the confidence: in exact arithmetic always, and on doubles whenever
    the network's prediction is not [-0]; the card starts its sum from the
    first prediction, [predict] from [0]. *)
Theorem card_average_is_the_mean :
  (forall r : PredictionResult Real,
      @averagePrediction Real (@nnPrediction Real r) (@mlrPrediction Real r)
                         (@categoryPrediction Real r)
      = simpleMean (@available Real r)) /\
  (forall r : PredictionResult Float64,
      nnPrediction r <> (-0)%float ->
      averagePrediction (nnPrediction r) (mlrPrediction r) (categoryPrediction r)
      = @mean Float64 (available r)).
Proof.
  split.
  - intros r. rewrite <- mean_exact. unfold averagePrediction, mean, available.
    real_arith. cbn [fold_left List.app length].
    destruct (@categoryPrediction Real r); cbn [fold_left List.app length];
      f_equal; lra.
  - intros r Hnn. unfold averagePrediction, mean, available.
    cbn [nadd ndiv nofZ Float64 List.app fold_left length].
    change (float_of_Z 0) with 0%float. rewrite (zero_plus _ Hnn).
    destruct (categoryPrediction r); reflexivity.
Qed.

Lemma card_average_is_the_mean_witness :
  averagePrediction 150%float 120%float None
  = @mean Float64 [150%float; 120%float].
Proof.
  apply (proj2 card_average_is_the_mean
           (@Build_PredictionResult Float64 150%float 120%float None 0%float)).
  intros H. apply (f_equal Prim2SF) in H. vm_compute in H. discriminate.
Defined.

End CardSpec.

Module FormSpec.
Import Dashboard.

Lemma last_record {A} (l : list A) (x : A) :
  at_index (l ++ [x])
           (if Nat.eqb (length (l ++ [x])) 0 then None
            else Some (length (l ++ [x]) - 1)%nat) = Some x.
Proof.
  rewrite length_app. cbn [length].
  replace (length l + 1)%nat with (S (length l)) by lia.
  cbn [Nat.eqb at_index]. replace (S (length l) - 1)%nat with (length l) by lia.
  rewrite nth_error_app2 by lia. rewrite Nat.sub_diag. reflexivity.
Qed.

(** X19.  The previous day's waste that [onSubmit] puts in the observation
    is the amount of the last record of the history and of no other, with
    0 in its place when the history is empty or when that amount is zero
    or NaN: it is never NaN and never [-0]. *)
Theorem previous_day_waste_of_the_last_record :
  previousDayWaste [] = 0%float /\
  (forall earlier record,
      previousDayWaste (earlier ++ [record]) =
      if falsy (amount record) then 0%float else amount record) /\
  (forall wasteData,
      PrimFloat.is_nan (previousDayWaste wasteData) = false /\
      previousDayWaste wasteData <> (-0)%float) /\
  (forall dayOfWeek inventoryData wasteData category,
      WastePredictionModel.previousDayWaste
        (predictionInput dayOfWeek inventoryData wasteData category)
      = previousDayWaste wasteData).
Proof.
  split; [reflexivity|]. split; [|split; [|reflexivity]].
  - intros earlier record. unfold previousDayWaste. cbv zeta.
    rewrite last_record. reflexivity.
  - intros wasteData. unfold previousDayWaste. cbv zeta.
    destruct (at_index wasteData _) as [record|];
      [|split; [reflexivity|intros H; apply (f_equal Prim2SF) in H;
                            vm_compute in H; discriminate]].
    unfold falsy. destruct (PrimFloat.is_zero (amount record)) eqn:Hz;
      cbn [orb];
      [split; [reflexivity|intros H; apply (f_equal Prim2SF) in H;
                           vm_compute in H; discriminate]|].
    destruct (PrimFloat.is_nan (amount record)) eqn:Hn;
      [split; [reflexivity|intros H; apply (f_equal Prim2SF) in H;
                           vm_compute in H; discriminate]|].
    split; [exact Hn|]. intros H. rewrite H in Hz. vm_compute in Hz. discriminate.
Qed.

End FormSpec.
